(** * Nerimity server: rate limiting, socket emits and push notifications

    A shallow embedding of three pieces of the server:
    - the [rateLimit] express middleware (middleware/rateLimit),
    - the socket emitters [emitServerJoined] and
      [emitServerMessageCreated] (emits/Server),
    - the FCM push dispatch of [fcm/pushNotification.ts].

    Asynchronous functions are modelled by the list of effects they
    perform, in order, together with the way their promise settles. *)

From Stdlib Require Import ZArith Bool Ascii String DecimalString.
From stdpp Require Import base tactics option list strings.

Local Open Scope string_scope.
Local Open Scope list_scope.
Local Open Scope Z_scope.

(** ** JavaScript values used by the three files

    A JavaScript string is a [string]; its characters stand for the
    code units that [length] and [substring] count. *)

Module JS.

(** A [string | undefined] value. *)
Definition StrOrUndef := option string.

(** Truthiness of a string: the empty string is falsy. *)
Definition str_truthy (s : string) : bool :=
  match s with
  | EmptyString => false
  | String _ _ => true
  end.

(** Truthiness of [string | undefined | null]. *)
Definition truthy (v : option string) : bool :=
  match v with
  | None => false
  | Some s => str_truthy s
  end.

(** Truthiness of an optional boolean flag ([flag?: boolean]). *)
Definition flag (b : option bool) : bool :=
  match b with
  | Some true => true
  | _ => false
  end.

(** [`${v}`] for a [string | undefined]. *)
Definition template (v : StrOrUndef) : string :=
  match v with
  | None => "undefined"
  | Some s => s
  end.

(** [s.replace(/:/g, '=')]. *)
Fixpoint replace_colons (s : string) : string :=
  match s with
  | EmptyString => EmptyString
  | String c rest =>
      String (if Ascii.eqb c ":"%char then "="%char else c)
             (replace_colons rest)
  end.

(** Free text, whose characters the code counts or classifies, is the
    list of its UTF-16 code units, which is what [length], [substring]
    and [trim] work on. *)
Definition CodeUnit := N.
Definition Text := list CodeUnit.

(** The text of a string literal or of an identifier. *)
Definition text (s : string) : Text :=
  map N_of_ascii (list_ascii_of_string s).

(** Truthiness of a text that may be [undefined] or [null]. *)
Definition text_truthy (v : option Text) : bool :=
  match v with
  | None => false
  | Some [] => false
  | Some (_ :: _) => true
  end.

(** [s.substring(0, n)] for [0 <= n]: the first [n] code units. *)
Definition substring0 (n : nat) (s : Text) : Text := take n s.

End JS.

(** ** middleware/rateLimit *)

Module RateLimit.

Record User := { user_id : string }.
Record AccountCache := { user : User }.

(** The fields of the express request that the middleware touches. *)
Record Request := {
  userIP : string;
  accountCache : option AccountCache;
  rateLimited : option Z
}.

Record Options := {
  name : string;
  expireMS : Z;
  requestCount : Z;
  useIP : option bool;
  globalLimit : option bool;
  nextIfRatedLimited : option bool;
  message : option string
}.

(** Argument object of [checkRateLimited]. *)
Record CheckArgs := {
  id : JS.StrOrUndef;
  arg_expireMS : Z;
  arg_requestCount : Z
}.

(** What [checkRateLimited] resolves to: [false] or the remaining
    time to live of the counter. *)
Inductive Ttl :=
| TtlFalse
| TtlNum (ms : Z).

Definition ttl_truthy (t : Ttl) : bool :=
  match t with
  | TtlFalse => false
  | TtlNum ms => negb (ms =? 0)
  end.

(** How the middleware leaves the request. *)
Inductive Action :=
| Next
| Status429 (error : string) (ttl : Ttl).

Definition set_rateLimited (req : Request) (ms : Z) : Request :=
  {| userIP := userIP req;
     accountCache := accountCache req;
     rateLimited := Some ms |}.

(** [req.accountCache?.user.id] *)
Definition account_user_id (req : Request) : JS.StrOrUndef :=
  match accountCache req with
  | None => None
  | Some a => Some (user_id (user a))
  end.

(** Lines 21-34: the value of [id] when [checkRateLimited] is called. *)
Definition rateLimitKey (opts : Options) (req : Request) : JS.StrOrUndef :=
  let ip := JS.replace_colons (userIP req) in
  let id : JS.StrOrUndef := Some "" in
  let id :=
    if negb (JS.flag (globalLimit opts)) then
      let id := if JS.flag (useIP opts) then Some ip else account_user_id req in
      if JS.str_truthy (name opts)
      then Some (JS.template id +:+ "-" +:+ name opts)
      else id
    else id in
  if JS.flag (globalLimit opts) then Some (name opts) else id.

Section Middleware.

(** The counter store behind [cache/RateLimitCache] and its
    [checkRateLimited] operation are external to the middleware. *)
Variable Store : Type.
Variable checkRateLimited : Store → CheckArgs → Store * Ttl.

Definition rateLimit (opts : Options) (st : Store) (req : Request)
  : Store * Request * Action :=
  let id := rateLimitKey opts req in
  let '(st', ttl) :=
    checkRateLimited st
      {| id := id;
         arg_expireMS := expireMS opts;
         arg_requestCount := requestCount opts |} in
  if ttl_truthy ttl && JS.flag (nextIfRatedLimited opts) then
    match ttl with
    | TtlNum ms => (st', set_rateLimited req ms, Next)
    | TtlFalse => (st', req, Next)
    end
  else if ttl_truthy ttl then
    (st', req,
     Status429 (if JS.truthy (message opts)
                then default "" (message opts)
                else "Slow down!") ttl)
  else (st', req, Next).

End Middleware.

(** A counter store that only records the arguments it is called
    with, most recent first, and never limits. *)
Definition recording_check (st : list CheckArgs) (a : CheckArgs)
  : list CheckArgs * Ttl := (a :: st, TtlFalse).

(** The identity of the caller as the spec describes it. *)
Definition identity (opts : Options) (req : Request) : JS.StrOrUndef :=
  if JS.flag (useIP opts)
  then Some (JS.replace_colons (userIP req))
  else account_user_id req.

(** Requests and options used to evaluate the middleware. *)
Definition local_request : Request :=
  {| userIP := "::1"; accountCache := None; rateLimited := None |}.

Definition alice_request : Request :=
  {| userIP := "10.0.0.7";
     accountCache := Some {| user := {| user_id := "alice" |} |};
     rateLimited := None |}.

Definition unnamed_ip_options : Options :=
  {| name := ""; expireMS := 20000; requestCount := 10;
     useIP := Some true; globalLimit := None;
     nextIfRatedLimited := None; message := None |}.

Definition create_message_options : Options :=
  {| name := "create_message"; expireMS := 20000; requestCount := 20;
     useIP := None; globalLimit := None;
     nextIfRatedLimited := Some true; message := None |}.

(** The keys the middleware hands to the counter store, read off a
    store that records them. *)
Definition keys_passed (opts : Options) (req : Request) : list JS.StrOrUndef :=
  map id (fst (fst (rateLimit (list CheckArgs) recording_check opts [] req))).

(** A counter store holding one counter: it limits, with 1500 ms left,
    once the counter has gone past [requestCount]. *)
Definition single_counter_check (count : Z) (a : CheckArgs) : Z * Ttl :=
  let count' := count + 1 in
  (count', if arg_requestCount a <? count' then TtlNum 1500 else TtlFalse).

Definition with_nextIfRatedLimited (opts : Options) (b : option bool) : Options :=
  {| name := name opts; expireMS := expireMS opts;
     requestCount := requestCount opts; useIP := useIP opts;
     globalLimit := globalLimit opts; nextIfRatedLimited := b;
     message := message opts |}.

End RateLimit.

(** ** Effects, in program order, and the way a call completes *)

Module Eff.

(** A call either returns or throws; for an [async] function these are
    the resolution and the rejection of the promise it returns. *)
Inductive Completion (Err A : Type) :=
| Returned (a : A)
| Thrown (e : Err).
Arguments Returned {Err A} a.
Arguments Thrown {Err A} e.

(** The effects performed, oldest first, and the completion. *)
Definition Run (E Err A : Type) : Type := list E * Completion Err A.

Definition ret {E Err A} (a : A) : Run E Err A := ([], Returned a).

Definition bind {E Err A B} (m : Run E Err A) (k : A → Run E Err B)
  : Run E Err B :=
  match m with
  | (tr, Returned a) => let '(tr', c) := k a in (tr ++ tr', c)
  | (tr, Thrown e) => (tr, Thrown e)
  end.

Definition tell {E Err} (e : E) : Run E Err unit := ([e], Returned tt).

Definition throw {E Err A} (e : Err) : Run E Err A := ([], Thrown e).

Definition trace {E Err A} (m : Run E Err A) : list E := fst m.

Definition completion {E Err A} (m : Run E Err A) : Completion Err A := snd m.

#[global] Instance run_ret {E Err} : MRet (Run E Err) := @ret E Err.
#[global] Instance run_bind {E Err} : MBind (Run E Err) :=
  λ A B k m, bind m k.

End Eff.

(** ** emits/Server *)

Module Emits.
Import Eff.

Inductive ClientEvent :=
| MESSAGE_CREATED
| SERVER_JOINED
| SERVER_MEMBER_JOINED.

Record User := { user_id : string }.

Record Server := {
  server_id : string;
  createdById : string
}.

Record Channel := {
  channel_id : string;
  permissions : option Z
}.

Record JoinedMember := { user : User }.

Section Emitters.

(** Data that the emitters only forward to the clients. *)
Variable Forwarded : Type.

(** [hasBit] and [CHANNEL_PERMISSIONS.PRIVATE_CHANNEL.bit] are imported
    from common/Bitwise. *)
Variable hasBit : Z → Z → bool.
Variable PRIVATE_CHANNEL_bit : Z.

Record ServerJoinOpts := {
  server : Server;
  members : Forwarded;
  channels : list Channel;
  joinedMember : option JoinedMember;
  roles : Forwarded;
  memberPresences : Forwarded;
  voiceChannelUsers : Forwarded
}.

Record Message := {
  channelId : string;
  fields : Forwarded
}.

Inductive Payload :=
| MemberJoinedPayload (serverId : string) (member : JoinedMember)
| ServerJoinedPayload (server : Server) (members : Forwarded)
    (channels : list Channel) (roles memberPresences voiceChannelUsers : Forwarded)
| MessagePayload (message : Message)
| SocketMessagePayload (socketId : JS.StrOrUndef) (message : Message).

(** A socket.io broadcast operator: the rooms targeted and the rooms
    excluded. *)
Record BroadcastOperator := {
  rooms : list string;
  exceptRooms : list string
}.

Inductive IoEffect :=
| Emit (target : BroadcastOperator) (event : ClientEvent) (payload : Payload)
| SocketsJoin (target : BroadcastOperator) (room : string).

Definition Io := Run IoEffect string.

(** [io.in(room)]; [io.to(room)] is the same operator. *)
Definition io_in (room : string) : BroadcastOperator :=
  {| rooms := [room]; exceptRooms := [] |}.
Definition io_to (room : string) : BroadcastOperator := io_in room.

Definition except (op : BroadcastOperator) (room : string) : BroadcastOperator :=
  {| rooms := rooms op; exceptRooms := exceptRooms op ++ [room] |}.

Definition emit (op : BroadcastOperator) (ev : ClientEvent) (p : Payload)
  : Io unit := tell (Emit op ev p).

Definition socketsJoin (op : BroadcastOperator) (room : string) : Io unit :=
  tell (SocketsJoin op room).

(** [channel.permissions || 0] *)
Definition permissions_or_0 (channel : Channel) : Z :=
  match permissions channel with
  | None => 0
  | Some p => if p =? 0 then 0 else p
  end.

Definition isPrivateChannel (channel : Channel) : bool :=
  hasBit (permissions_or_0 channel) PRIVATE_CHANNEL_bit.

Definition isAdmin (srv : Server) (joinedMemberUserId : string) : bool :=
  String.eqb (createdById srv) joinedMemberUserId.

(** The body of the loop of lines 63-74, for one channel. *)
Definition joinChannel (srv : Server) (joinedMemberUserId : string)
    (channel : Channel) : Io unit :=
  if isPrivateChannel channel && negb (isAdmin srv joinedMemberUserId)
  then ret tt
  else socketsJoin (io_in joinedMemberUserId) (channel_id channel).

(** [for (let i = 0; i < opts.channels.length; i++)] *)
Fixpoint joinChannels (srv : Server) (joinedMemberUserId : string)
    (chans : list Channel) : Io unit :=
  match chans with
  | [] => ret tt
  | channel :: rest =>
      joinChannel srv joinedMemberUserId channel;;
      joinChannels srv joinedMemberUserId rest
  end.

(** [opts.joinedMember?.user.id] *)
Definition joinedMember_user_id (opts : ServerJoinOpts) : JS.StrOrUndef :=
  match joinedMember opts with
  | None => None
  | Some m => Some (user_id (user m))
  end.

(** Lines 50-84.  When [opts.joinedMember] is nullish the optional
    chain [opts.joinedMember?.user.id] is [undefined], and the function
    throws as it does for an empty id. *)
Definition emitServerJoined (opts : ServerJoinOpts) : Io unit :=
  let serverId := server_id (server opts) in
  match joinedMember opts with
  | Some member =>
      if negb (JS.truthy (joinedMember_user_id opts))
      then throw "User not found."
      else
        let joinedMemberUserId := user_id (user member) in
        emit (io_to serverId) SERVER_MEMBER_JOINED
          (MemberJoinedPayload serverId member);;
        socketsJoin (io_in joinedMemberUserId) serverId;;
        joinChannels (server opts) joinedMemberUserId (channels opts);;
        emit (io_in joinedMemberUserId) SERVER_JOINED
          (ServerJoinedPayload (server opts) (members opts) (channels opts)
             (roles opts) (memberPresences opts) (voiceChannelUsers opts))
  | None => throw "User not found."
  end.

(** Lines 115-130. *)
Definition emitServerMessageCreated (message : Message)
    (socketId : JS.StrOrUndef) : Io unit :=
  let channelId := channelId message in
  if JS.truthy socketId then
    emit (except (io_in channelId) (JS.template socketId)) MESSAGE_CREATED
      (MessagePayload message);;
    emit (io_in (JS.template socketId)) MESSAGE_CREATED
      (SocketMessagePayload socketId message)
  else
    emit (io_in channelId) MESSAGE_CREATED
      (SocketMessagePayload socketId message).

(** The filter of the spec: the channel is not marked private, or the
    joining user is the creator of the server. *)
Definition joinsChannel (srv : Server) (joinedMemberUserId : string)
    (channel : Channel) : bool :=
  negb (isPrivateChannel channel) || isAdmin srv joinedMemberUserId.

End Emitters.

Arguments ServerJoinOpts Forwarded : clear implicits.
Arguments Message Forwarded : clear implicits.
Arguments Payload Forwarded : clear implicits.
Arguments IoEffect Forwarded : clear implicits.
Arguments MemberJoinedPayload {Forwarded} serverId member.
Arguments ServerJoinedPayload {Forwarded} server members channels
  roles memberPresences voiceChannelUsers.
Arguments MessagePayload {Forwarded} message.
Arguments SocketMessagePayload {Forwarded} socketId message.
Arguments Emit {Forwarded} target event payload.
Arguments SocketsJoin {Forwarded} target room.
Arguments emitServerMessageCreated {Forwarded} message socketId.
Arguments server {Forwarded} _.
Arguments members {Forwarded} _.
Arguments channels {Forwarded} _.
Arguments joinedMember {Forwarded} _.
Arguments roles {Forwarded} _.
Arguments memberPresences {Forwarded} _.
Arguments voiceChannelUsers {Forwarded} _.
Arguments channelId {Forwarded} _.
Arguments fields {Forwarded} _.
Arguments joinedMember_user_id {Forwarded} opts.

(** [hasBit] as a mask test, with the private-channel flag on bit 0,
    for evaluating the emitters. *)
Definition mask_hasBit (permissions bit : Z) : bool :=
  Z.land permissions bit =? bit.

Definition sample_server : Server :=
  {| server_id := "srv"; createdById := "owner" |}.

Definition sample_channels : list Channel :=
  [ {| channel_id := "general"; permissions := Some 0 |};
    {| channel_id := "staff"; permissions := Some 1 |};
    {| channel_id := "rules"; permissions := None |} ].

Definition sample_join (uid : option string) : ServerJoinOpts unit :=
  {| server := sample_server; members := tt; channels := sample_channels;
     joinedMember := option_map (λ u, {| user := {| user_id := u |} |}) uid;
     roles := tt; memberPresences := tt; voiceChannelUsers := tt |}.

Definition sample_message : Message unit :=
  {| channelId := "general"; fields := tt |}.

End Emits.

(** ** fcm/pushNotification.ts *)

Module Push.
Import Eff.

(** *** The rows the two queries navigate *)

Record ServerMemberSettings := {
  serverId : string;
  userId : string;
  notificationPingMode : Z
}.

Record Server := { server_id : string }.

Record User := {
  user_id : string;
  servers : list Server;
  joinedServerSettings : list ServerMemberSettings
}.

Record Account := { user : User }.

Record FirebaseMessagingToken := {
  token : string;
  account : Account
}.

(** *** Arguments of the two functions *)

Record CreatedBy := {
  createdBy_id : string;
  username : string;
  avatar : option string;
  hexColor : option string
}.

Record Mention := { mention_id : string }.

Record Message := {
  content : option JS.Text;
  type : Z;
  channelId : string;
  createdBy : CreatedBy;
  mentions : list Mention
}.

Record Inbox := { recipientId : string }.

Record ChannelCache := {
  channel_name : string;
  inbox : option Inbox
}.

Record ServerCache := {
  server_name : string;
  server_avatar : option string;
  server_hexColor : option string
}.

(** *** The push gateway *)

Record FirebaseError := { code : string }.

Record SendResponse := {
  success : bool;
  error : option FirebaseError
}.

Record BatchResponse := { responses : list SendResponse }.

(** The [data] object: keys and values in insertion order. *)
Definition Data := list (string * JS.Text).

Record MulticastMessage := {
  tokens : list string;
  android_priority : string;
  data : Data
}.

(** What [sendEachForMulticast] settles to: the call as a whole is
    rejected, or it resolves to one response per token. *)
Inductive GatewayResult :=
| GatewayRejected (e : FirebaseError)
| GatewayResolved (r : BatchResponse).

Definition Gateway := MulticastMessage → GatewayResult.

Inductive Effect :=
| LogWarn (msg : string)
| SendEachForMulticast (m : MulticastMessage)
| RemoveFCMTokens (failedTokens : list string).

Definition Async := Run Effect FirebaseError.

(** [await admin.messaging().sendEachForMulticast(m)] *)
Definition sendEachForMulticast (gateway : Gateway) (m : MulticastMessage)
  : Async BatchResponse :=
  match gateway m with
  | GatewayRejected e => ([SendEachForMulticast m], Thrown e)
  | GatewayResolved r => ([SendEachForMulticast m], Returned r)
  end.

(** [removeFCMTokens(failedTokens)], not awaited. *)
Definition removeFCMTokens (failedTokens : list string) : Async unit :=
  tell (RemoveFCMTokens failedTokens).


(** *** Query filters *)

Definition some {A} (p : A → bool) (l : list A) : bool := existsb p l.
Definition none {A} (p : A → bool) (l : list A) : bool := negb (existsb p l).
Definition in_ (x : string) (l : list string) : bool := existsb (String.eqb x) l.

(** [message?.content?.substring(0, 100)] *)
Definition truncated_content (message : Message) : option JS.Text :=
  match content message with
  | None => None
  | Some c => Some (JS.substring0 100 c)
  end.

(** [...(v ? { key: v } : undefined)] *)
Definition spread_if (key : string) (v : option JS.Text) : Data :=
  if JS.text_truthy v then [(key, default [] v)] else [].

(** [n.toString()] for an integer. *)
Definition toString (n : Z) : string := NilZero.string_of_int (Z.to_int n).

(** [data[key]] *)
Fixpoint get (key : string) (d : Data) : option JS.Text :=
  match d with
  | [] => None
  | (k, v) :: rest => if String.eqb k key then Some v else get key rest
  end.

(** Lines 109-111 and 158-160:
    [responses.map((sendResponse, index) => sendResponse.error && tokens[index])
              .filter((token) => token)] *)
Definition failedTokensOf (tokens : list string) (batchResponse : BatchResponse)
  : list string :=
  let mapped : list JS.StrOrUndef :=
    imap (λ index sendResponse,
            match error sendResponse with
            | None => None
            | Some _ => tokens !! index
            end) (responses batchResponse) in
  omap id (List.filter JS.truthy mapped).

Section Dispatch.

(** The members [ALL] and [MENTIONS_ONLY] of the enum
    [ServerNotificationPingMode], imported from services/User/User. *)
Variable ALL : Z.
Variable MENTIONS_ONLY : Z.

(** Module state: [credentials]. *)
Variable credentials : option string.

(** The [where] clause of lines 49-84, on one row. *)
Definition serverTokenWhere (serverId0 : string) (mentionedUserIds : list string)
    (row : FirebaseMessagingToken) : bool :=
  let u := user (account row) in
  some (λ s, String.eqb (server_id s) serverId0) (servers u)
  && (none (λ s, String.eqb (serverId s) serverId0) (joinedServerSettings u)
      || some (λ s, String.eqb (serverId s) serverId0
                    && in_ (userId s) mentionedUserIds
                    && (notificationPingMode s =? MENTIONS_ONLY))
           (joinedServerSettings u)
      || some (λ s, String.eqb (serverId s) serverId0
                    && (notificationPingMode s =? ALL))
           (joinedServerSettings u)).

(** Lines 46-87: the tokens the server push is sent to. *)
Definition serverTokens (db : list FirebaseMessagingToken) (serverId0 : string)
    (message : Message) : list string :=
  let mentionedUserIds := map mention_id (mentions message) in
  map token (List.filter (serverTokenWhere serverId0 mentionedUserIds) db).

Definition serverData (serverId0 : string) (message : Message)
    (channel : ChannelCache) (server : ServerCache) : Data :=
  let content := truncated_content message in
  spread_if "content" content
  ++ [("type", JS.text (toString (type message)));
      ("channelName", JS.text (channel_name channel));
      ("serverName", JS.text (server_name server));
      ("channelId", JS.text (channelId message));
      ("serverId", JS.text serverId0);
      ("cUserId", JS.text (createdBy_id (createdBy message)));
      ("cName", JS.text (username (createdBy message)))]
  ++ spread_if "sAvatar" (option_map JS.text (server_avatar server))
  ++ spread_if "sHexColor" (option_map JS.text (server_hexColor server)).

Definition sendServerPushMessageNotification
    (db : list FirebaseMessagingToken) (gateway : Gateway)
    (serverId0 : string) (message : Message)
    (channel : ChannelCache) (server : ServerCache) : Async unit :=
  if negb (bool_decide (is_Some credentials)) then ret tt else
  let tokens := serverTokens db serverId0 message in
  if bool_decide (tokens = []) then ret tt else
  batchResponse ← sendEachForMulticast gateway
    {| tokens := tokens;
       android_priority := "high";
       data := serverData serverId0 message channel server |};
  let failedTokens := failedTokensOf tokens batchResponse in
  if bool_decide (failedTokens = []) then ret tt else
  removeFCMTokens failedTokens.

(** The [where] clause of line 132; a filter whose value is
    [undefined] does not constrain the rows. *)
Definition dmTokenWhere (recipient : JS.StrOrUndef)
    (row : FirebaseMessagingToken) : bool :=
  match recipient with
  | None => true
  | Some r => String.eqb (user_id (user (account row))) r
  end.

(** Lines 129-135: the tokens the direct-message push is sent to. *)
Definition dmTokens (db : list FirebaseMessagingToken) (channel : ChannelCache)
  : list string :=
  let recipient := option_map recipientId (inbox channel) in
  map token (List.filter (dmTokenWhere recipient) db).

Definition dmData (message : Message) : Data :=
  let content := truncated_content message in
  spread_if "content" content
  ++ [("type", JS.text (toString (type message)));
      ("channelId", JS.text (channelId message));
      ("cUserId", JS.text (createdBy_id (createdBy message)));
      ("cName", JS.text (username (createdBy message)))]
  ++ spread_if "uAvatar" (option_map JS.text (avatar (createdBy message)))
  ++ spread_if "uHexColor" (option_map JS.text (hexColor (createdBy message))).

Definition sendDmPushNotification
    (db : list FirebaseMessagingToken) (gateway : Gateway)
    (message : Message) (channel : ChannelCache) : Async unit :=
  if negb (bool_decide (is_Some credentials)) then ret tt else
  let tokens := dmTokens db channel in
  if bool_decide (tokens = []) then ret tt else
  batchResponse ← sendEachForMulticast gateway
    {| tokens := tokens;
       android_priority := "high";
       data := dmData message |};
  let failedTokens := failedTokensOf tokens batchResponse in
  if bool_decide (failedTokens = []) then ret tt else
  removeFCMTokens failedTokens.

(** The messages handed to the gateway by the two functions. *)
Definition serverMulticast (db : list FirebaseMessagingToken) (serverId0 : string)
    (message : Message) (channel : ChannelCache) (server : ServerCache)
  : MulticastMessage :=
  {| tokens := serverTokens db serverId0 message;
     android_priority := "high";
     data := serverData serverId0 message channel server |}.

Definition dmMulticast (db : list FirebaseMessagingToken)
    (message : Message) (channel : ChannelCache) : MulticastMessage :=
  {| tokens := dmTokens db channel;
     android_priority := "high";
     data := dmData message |}.

End Dispatch.

(** *** The eligibility rules of the spec, on one user *)

Definition owner (row : FirebaseMessagingToken) : User := user (account row).

Definition isMember (u : User) (sid : string) : Prop :=
  ∃ s, In s (servers u) ∧ server_id s = sid.

(** The user has no [NotificationPreference] record for the server. *)
Definition noRecord (u : User) (sid : string) : Prop :=
  ∀ s, In s (joinedServerSettings u) → serverId s ≠ sid.

(** The user has a record for the server with the given ping mode. *)
Definition hasRecord (u : User) (sid : string) (mode : Z) : Prop :=
  ∃ s, In s (joinedServerSettings u)
       ∧ serverId s = sid ∧ notificationPingMode s = mode.

Definition pushEligible (ALL MENTIONS_ONLY : Z) (u : User) (sid : string)
    (mentionedUserIds : list string) : Prop :=
  noRecord u sid
  ∨ (hasRecord u sid MENTIONS_ONLY ∧ In (user_id u) mentionedUserIds)
  ∨ hasRecord u sid ALL.

(** [joinedServerSettings] is the relation from a user to the settings
    rows that carry the user's id. *)
Definition settingsOwned (u : User) : Prop :=
  ∀ s, In s (joinedServerSettings u) → userId s = user_id u.

(** The tokens of the pairs whose response carries an error. *)
Definition errorTokens (tokens : list string) (rs : list SendResponse)
  : list string :=
  map fst (List.filter (λ p, bool_decide (is_Some (error (snd p))))
             (zip tokens rs)).

(** The deletion that follows a resolved gateway call. *)
Definition removal (failedTokens : list string) : list Effect :=
  match failedTokens with
  | [] => []
  | _ :: _ => [RemoveFCMTokens failedTokens]
  end.

Definition with_createdBy (message : Message) (cb : CreatedBy) : Message :=
  {| content := content message; type := type message;
     channelId := channelId message; createdBy := cb;
     mentions := mentions message |}.

(** *** Data for evaluating the two functions *)

Definition member_row (uid tok : string) (settings : list ServerMemberSettings)
  : FirebaseMessagingToken :=
  {| token := tok;
     account := {| user := {| user_id := uid;
                              servers := [ {| server_id := "srv" |} ];
                              joinedServerSettings := settings |} |} |}.

Definition setting (uid : string) (mode : Z) : ServerMemberSettings :=
  {| serverId := "srv"; userId := uid; notificationPingMode := mode |}.

(** Members A (no record), B and C ([MENTIONS_ONLY]) and D ([ALL]). *)
Definition rowA : FirebaseMessagingToken := member_row "A" "tA" [].
Definition rowB (MENTIONS_ONLY : Z) : FirebaseMessagingToken :=
  member_row "B" "tB" [setting "B" MENTIONS_ONLY].
Definition rowC (MENTIONS_ONLY : Z) : FirebaseMessagingToken :=
  member_row "C" "tC" [setting "C" MENTIONS_ONLY].
Definition rowD (ALL : Z) : FirebaseMessagingToken :=
  member_row "D" "tD" [setting "D" ALL].

Definition example_db (ALL MENTIONS_ONLY : Z) : list FirebaseMessagingToken :=
  [rowA; rowB MENTIONS_ONLY; rowC MENTIONS_ONLY; rowD ALL].

Definition author : CreatedBy :=
  {| createdBy_id := "A"; username := "ann"; avatar := None;
     hexColor := Some "#ff0000" |}.

(** A body of 150 code units: 100 times [a], then 50 times [b]. *)
Definition long_body : JS.Text := repeat 97%N 100 ++ repeat 98%N 50.

(** A body of 150 code units whose hundredth is U+65E5. *)
Definition kanji_body : JS.Text :=
  repeat 97%N 99 ++ [26085%N] ++ repeat 98%N 50.

(** A message written by A that mentions C. *)
Definition example_message : Message :=
  {| content := Some long_body; type := 0; channelId := "chan";
     createdBy := author; mentions := [ {| mention_id := "C" |} ] |}.

Definition example_channel : ChannelCache :=
  {| channel_name := "general"; inbox := Some {| recipientId := "D" |} |}.

Definition example_server : ServerCache :=
  {| server_name := "Server"; server_avatar := None; server_hexColor := None |}.

Definition ok_response : SendResponse := {| success := true; error := None |}.
Definition error_response : SendResponse :=
  {| success := false;
     error := Some {| code := "messaging/registration-token-not-registered" |} |}.

(** A gateway that reports an error for the second token only. *)
Definition gateway_second_fails : Gateway :=
  λ m, GatewayResolved
         {| responses := imap (λ i _, if Nat.eqb i 1 then error_response
                                      else ok_response) (tokens m) |}.

(** Three devices [t1], [t2], [t3] of the recipient D. *)
Definition three_devices : list FirebaseMessagingToken :=
  [member_row "D" "t1" []; member_row "D" "t2" []; member_row "D" "t3" []].

(** A gateway whose call fails as a whole. *)
Definition gateway_down : Gateway :=
  λ _, GatewayRejected {| code := "app/network-error" |}.

(** *** The awaited query *)






End Push.

(** ** emits/Server: leaving a server *)

Module ServerLeft.
Import Eff Emits.

Inductive LeftEvent :=
| SERVER_LEFT
| SERVER_MEMBER_LEFT.

Inductive LeftPayload :=
| ServerLeftPayload (serverId : string)
| MemberLeftPayload (serverId userId : string).

Inductive LeftEffect :=
| EmitLeft (target : BroadcastOperator) (event : LeftEvent) (payload : LeftPayload)
| SocketsLeave (target : BroadcastOperator) (rooms : list string).

Record ServerLeftOpts := {
  userId : option string;
  serverId : string;
  serverDeleted : option bool;
  channelIds : option (list string)
}.

(** Lines 86-113. An array, even an empty one, is truthy. *)
Definition emitServerLeft (opts : ServerLeftOpts) : Run LeftEffect string unit :=
  if JS.flag (serverDeleted opts) then
    tell (EmitLeft (io_in (serverId opts)) SERVER_LEFT
            (ServerLeftPayload (serverId opts)));;
    tell (SocketsLeave (io_in (serverId opts)) [serverId opts])
  else if negb (JS.truthy (userId opts))
          || negb (bool_decide (is_Some (channelIds opts)))
  then ret tt
  else
    let user := JS.template (userId opts) in
    tell (SocketsLeave (io_in user)
            (serverId opts :: default [] (channelIds opts)));;
    tell (EmitLeft (io_in (serverId opts)) SERVER_MEMBER_LEFT
            (MemberLeftPayload (serverId opts) user));;
    tell (EmitLeft (io_in user) SERVER_LEFT
            (ServerLeftPayload (serverId opts))).

(** The rooms joined, with the sockets they are joined by, in a trace
    of [emitServerJoined]. *)
Definition joinedRooms {Forwarded : Type} (tr : list (IoEffect Forwarded))
  : list (BroadcastOperator * string) :=
  omap (λ e, match e with
             | SocketsJoin op room => Some (op, room)
             | Emit _ _ _ => None
             end) tr.

(** The rooms left, with the sockets that leave them. *)
Definition leftRooms (tr : list LeftEffect) : list (BroadcastOperator * string) :=
  flat_map (λ e, match e with
                 | SocketsLeave op rooms => map (pair op) rooms
                 | EmitLeft _ _ _ => []
                 end) tr.

(** The leave that undoes [emitServerJoined opts] for the user [uid]. *)
Definition leaveOf {Forwarded : Type} (opts : ServerJoinOpts Forwarded)
    (uid : string) : ServerLeftOpts :=
  {| userId := Some uid;
     serverId := server_id (server opts);
     serverDeleted := None;
     channelIds := Some (map channel_id (channels opts)) |}.

End ServerLeft.

(** ** String methods used by the routes *)

Module JSText.

(** The white space and line terminators that [trim] removes: U+0009 to
    U+000D, U+0020, U+00A0, U+1680, U+2000 to U+200A, U+2028, U+2029,
    U+202F, U+205F, U+3000 and U+FEFF. *)
Definition is_whitespace (u : JS.CodeUnit) : bool :=
  (((9 <=? u) && (u <=? 13))
   || (u =? 32) || (u =? 160) || (u =? 5760)
   || ((8192 <=? u) && (u <=? 8202))
   || (u =? 8232) || (u =? 8233) || (u =? 8239) || (u =? 8287)
   || (u =? 12288) || (u =? 65279))%N.

Fixpoint trimStart (s : JS.Text) : JS.Text :=
  match s with
  | [] => []
  | u :: rest => if is_whitespace u then trimStart rest else s
  end.

Fixpoint trimEnd (s : JS.Text) : JS.Text :=
  match s with
  | [] => []
  | u :: rest =>
      match trimEnd rest with
      | [] => if is_whitespace u then [] else [u]
      | u' :: rest' => u :: u' :: rest'
      end
  end.

(** [s.trim()] *)
Definition trim (s : JS.Text) : JS.Text := trimEnd (trimStart s).

(** [hay.startsWith(needle)], code unit by code unit. *)
Fixpoint prefix (needle hay : JS.Text) : bool :=
  match needle, hay with
  | [], _ => true
  | _ :: _, [] => false
  | a :: needle', b :: hay' => (a =? b)%N && prefix needle' hay'
  end.

(** [hay.includes(needle)] *)
Fixpoint includes (needle hay : JS.Text) : bool :=
  prefix needle hay
  || match hay with
     | [] => false
     | _ :: rest => includes needle rest
     end.

(** [!s?.trim()] for a text that may be [undefined]. *)
Definition blank (s : option JS.Text) : bool :=
  negb (JS.text_truthy (option_map trim s)).

End JSText.

(** ** routes/channels/channelMessageCreate.ts *)

Module MessageCreate.
Import Eff.

Record GoogleDriveAttachment := {
  gd_id : option string;
  gd_mime : option string
}.

Record Body := {
  content : option JS.Text;
  socketId : option string;
  googleDriveAttachment : option GoogleDriveAttachment
}.

(** An uploaded file, as the multipart parser hands it over. *)
Record File := { handle : string }.

Record FileInfo := {
  file : option File;
  filename : string
}.

Record UserCache := {
  user_id : string;
  badges : Z
}.

Record AccountCache := {
  emailConfirmed : bool;
  user : UserCache
}.

Record ServerCache := {
  server_id : string;
  public : bool
}.

Record Inbox := { canMessage : bool }.

Record ChannelCache := {
  channel_id : string;
  serverId : option string;
  server : option ServerCache;
  inbox : option Inbox;
  type : Z;
  permissions : Z
}.

Record Request := {
  body : Body;
  fileInfo : option FileInfo;
  accountCache : AccountCache;
  serverCache : option ServerCache;
  channelCache : ChannelCache
}.

(** [Partial<Attachment>] *)
Record Attachment := {
  width : option Z;
  height : option Z;
  path : option string;
  fileId : option string;
  mime : option string;
  provider : option string;
  createdAt : option string
}.

Record UploadedImage := {
  image_path : string;
  image_width : Z;
  image_height : Z
}.

(** The error of [uploadImage]: a string, or an object with a [type]. *)
Inductive UploadError :=
| ErrString (s : string)
| ErrObject (type : string).

Definition UploadResult : Type := option UploadedImage * option UploadError.

Record CreateMessageOpts := {
  cm_channelId : string;
  cm_content : option JS.Text;
  cm_userId : string;
  cm_channel : ChannelCache;
  cm_serverId : option string;
  cm_server : option ServerCache;
  cm_socketId : option string;
  cm_type : Z;
  cm_attachment : option Attachment;
  cm_everyoneMentioned : option bool
}.

Record CreatedMessage := { message_id : string }.

(** [[message, error]] *)
Definition CreateResult : Type := option CreatedMessage * option string.

Inductive Json :=
| ValidateErrorJson (e : string)
| ErrorJson (message : string)
| MessageJson (m : option CreatedMessage).

Record Response := {
  status : Z;
  json : Json
}.

Inductive Effect :=
| UploadImage (f : File) (filename channelId : string)
| CreateMessage (opts : CreateMessageOpts)
| DeleteImage (path : string).

(** What the route imports: common/Bitwise, types/Channel, types/Message,
    services/Message, common/errorHandler, common/nerimityCDN,
    middleware/memberHasRolePermission and common/database. *)
Record Env := {
  hasBit : Z → Z → bool;
  SUPPORTER_bit : Z;
  FOUNDER_bit : Z;
  ADMIN_bit : Z;
  PRIVATE_CHANNEL_bit : Z;
  TextChannelTypes : list Z;
  MessageType_CONTENT : Z;
  GoogleDrive : string;
  customExpressValidatorResult : Request → option string;
  (** whether the first component of
      [memberHasRolePermission(req, ROLE_PERMISSIONS.MENTION_EVERYONE)]
      is truthy *)
  memberHasRolePermission : Request → bool;
  uploadImage : File → string → string → UploadResult;
  createMessage : CreateMessageOpts → CreateResult;
  dateToDateTime : string
}.

Definition isEmailConfirmed (account : AccountCache) : bool :=
  emailConfirmed account.

Definition isSupporterOrModerator (env : Env) (u : UserCache) : bool :=
  hasBit env (badges u) (SUPPORTER_bit env)
  || hasBit env (badges u) (FOUNDER_bit env)
  || hasBit env (badges u) (ADMIN_bit env).

Definition isPrivateChannel (env : Env) (channel : ChannelCache) : bool :=
  if negb (JS.truthy (serverId channel)) then false
  else hasBit env (permissions channel) (PRIVATE_CHANNEL_bit env).

Definition isServerPublic (srv : ServerCache) : bool := public srv.

(** [req.fileInfo?.file] *)
Definition requestFile (req : Request) : option File :=
  match fileInfo req with
  | None => None
  | Some info => file info
  end.

(** [err] is truthy: a string error is so when it is not empty. *)
Definition uploadError_truthy (err : option UploadError) : bool :=
  match err with
  | None => false
  | Some (ErrString s) => JS.str_truthy s
  | Some (ErrObject _) => true
  end.

(** Lines 203-216: the answer to a failed upload. *)
Definition uploadErrorResponse (err : UploadError) : Response :=
  match err with
  | ErrString s => {| status := 403; json := ErrorJson s |}
  | ErrObject t =>
      if String.eqb t "INVALID_IMAGE"
      then {| status := 403;
              json := ErrorJson "You can only upload images for now." |}
      else {| status := 403;
              json := ErrorJson ("An unknown error has occurred (" +:+ t +:+ ")") |}
  end.

(** Lines 218-222. *)
Definition uploadedAttachment (img : UploadedImage) : Attachment :=
  {| width := Some (image_width img); height := Some (image_height img);
     path := Some (image_path img); fileId := None; mime := None;
     provider := None; createdAt := None |}.

(** Lines 224-231. *)
Definition driveAttachment (env : Env) (gd : GoogleDriveAttachment) : Attachment :=
  {| width := None; height := None; path := None;
     fileId := gd_id gd; mime := gd_mime gd;
     provider := Some (GoogleDrive env);
     createdAt := Some (dateToDateTime env) |}.

(** Lines 185-192: [canMentionEveryone]. *)
Definition canMentionEveryone (env : Env) (req : Request) : option bool :=
  let can := option_map (JSText.includes (JS.text "[@:e]")) (content (body req)) in
  if JS.flag can then Some (memberHasRolePermission env req) else can.

(** Lines 233-244: the argument of [createMessage]. *)
Definition messageOpts (env : Env) (req : Request)
    (attachment : option Attachment) : CreateMessageOpts :=
  {| cm_channelId := channel_id (channelCache req);
     cm_content := content (body req);
     cm_userId := user_id (user (accountCache req));
     cm_channel := channelCache req;
     cm_serverId := option_map server_id (server (channelCache req));
     cm_server := serverCache req;
     cm_socketId := socketId (body req);
     cm_type := MessageType_CONTENT env;
     cm_attachment := attachment;
     cm_everyoneMentioned := canMentionEveryone env req |}.

(** Lines 224-253: from the Google Drive attachment to the answer. *)
Definition createAndRespond (env : Env) (req : Request)
    (attachment : option Attachment) : Run Effect string Response :=
  let attachment :=
    match googleDriveAttachment (body req) with
    | Some gd => Some (driveAttachment env gd)
    | None => attachment
    end in
  let opts := messageOpts env req attachment in
  tell (CreateMessage opts);;
  let '(message, error) := createMessage env opts in
  if JS.truthy error then
    (match requestFile req, attachment with
     | Some _, Some a =>
         if JS.truthy (path a) then tell (DeleteImage (default "" (path a)))
         else ret tt
     | _, _ => ret tt
     end);;
    ret {| status := 400; json := ErrorJson (default "" error) |}
  else ret {| status := 200; json := MessageJson message |}.

Definition bad (msg : string) : Run Effect string Response :=
  ret {| status := 400; json := ErrorJson msg |}.

(** Lines 194-253: the upload of the file, then [createAndRespond]. *)
Definition uploadAndCreate (env : Env) (req : Request)
  : Run Effect string Response :=
  match fileInfo req with
  | Some info =>
      match file info with
      | Some f =>
          tell (UploadImage f (filename info) (channel_id (channelCache req)));;
          let '(uploadedImage, err) :=
            uploadImage env f (filename info) (channel_id (channelCache req)) in
          if uploadError_truthy err then
            match err with
            | Some e => ret (uploadErrorResponse e)
            | None => throw "TypeError"
            end
          else
            match uploadedImage with
            | Some img => createAndRespond env req (Some (uploadedAttachment img))
            | None => throw "TypeError"
            end
      | None => createAndRespond env req None
      end
  | None => createAndRespond env req None
  end.

(** Lines 97-254. The three checks of lines 108-144 are made only when
    the message has an attachment, the two of lines 148-157 only when it
    has a Google Drive attachment. *)
Definition route (env : Env) (req : Request) : Run Effect string Response :=
  let body := body req in
  match customExpressValidatorResult env req with
  | Some validateError =>
      ret {| status := 400; json := ValidateErrorJson validateError |}
  | None =>
  let hasDrive := bool_decide (is_Some (googleDriveAttachment body)) in
  let hasFile := bool_decide (is_Some (requestFile req)) in
  let hasAttachment := hasDrive || hasFile in
  let supporter := isSupporterOrModerator env (user (accountCache req)) in
  let isServerNotPublicAndNotSupporter :=
    match serverCache req with
    | Some srv => negb (isServerPublic srv) && negb supporter
    | None => false
    end in
  let isPrivateChannelAndNotSupporter :=
    isPrivateChannel env (channelCache req) && negb supporter in
  if hasAttachment && negb (isEmailConfirmed (accountCache req)) then
    bad "You must confirm your email to send attachment messages."
  else if hasAttachment && isServerNotPublicAndNotSupporter then
    bad "You must be a Nerimity supporter to send attachment messages to a private server."
  else if hasAttachment && isPrivateChannelAndNotSupporter then
    bad "You must be a Nerimity supporter to send attachment messages to a private channel."
  else if match googleDriveAttachment body with
          | Some gd => negb (JS.truthy (gd_id gd))
          | None => false
          end then
    bad "googleDriveAttachment id is required"
  else if match googleDriveAttachment body with
          | Some gd => negb (JS.truthy (gd_mime gd))
          | None => false
          end then
    bad "googleDriveAttachment mime is required"
  else if JS.truthy (serverId (channelCache req))
          && negb (emailConfirmed (accountCache req)) then
    bad "You must confirm your email to send messages."
  else if match inbox (channelCache req) with
          | Some box => negb (canMessage box)
          | None => false
          end then
    bad "You cannot message this user."
  else if negb (existsb (Z.eqb (type (channelCache req))) (TextChannelTypes env)) then
    bad "You cannot send messages in this channel."
  else if JSText.blank (content body) && negb hasFile && negb hasDrive then
    bad "content or attachment is required."
  else uploadAndCreate env req
  end.

(** The conditions under which the route goes on to upload and create,
    as one conjunction. *)
Definition gate (env : Env) (req : Request) : bool :=
  let hasDrive := bool_decide (is_Some (googleDriveAttachment (body req))) in
  let hasFile := bool_decide (is_Some (requestFile req)) in
  let supporter := isSupporterOrModerator env (user (accountCache req)) in
  bool_decide (customExpressValidatorResult env req = None)
  && (negb (hasDrive || hasFile)
      || (emailConfirmed (accountCache req)
          && (supporter
              || (match serverCache req with
                  | Some srv => public srv
                  | None => true
                  end
                  && negb (isPrivateChannel env (channelCache req))))))
  && match googleDriveAttachment (body req) with
     | Some gd => JS.truthy (gd_id gd) && JS.truthy (gd_mime gd)
     | None => true
     end
  && (negb (JS.truthy (serverId (channelCache req)))
      || emailConfirmed (accountCache req))
  && match inbox (channelCache req) with
     | Some box => canMessage box
     | None => true
     end
  && existsb (Z.eqb (type (channelCache req))) (TextChannelTypes env)
  && (negb (JSText.blank (content (body req))) || hasFile || hasDrive).

(** *** Data for evaluating the route *)

Definition mask (permissions bit : Z) : bool := Z.land permissions bit =? bit.

Definition sample_env (upload : UploadResult) (create : CreateResult) : Env :=
  {| hasBit := mask;
     SUPPORTER_bit := 4; FOUNDER_bit := 1; ADMIN_bit := 2;
     PRIVATE_CHANNEL_bit := 1;
     TextChannelTypes := [0; 1];
     MessageType_CONTENT := 0;
     GoogleDrive := "google_drive";
     customExpressValidatorResult := λ _, None;
     memberHasRolePermission := λ _, true;
     uploadImage := λ _ _ _, upload;
     createMessage := λ _, create;
     dateToDateTime := "2023-01-01T00:00:00.000Z" |}.

Definition sample_channel : ChannelCache :=
  {| channel_id := "chan"; serverId := Some "srv";
     server := Some {| server_id := "srv"; public := true |};
     inbox := None; type := 1; permissions := 0 |}.

Definition sample_request (text : option string) (f : option File)
    (gd : option GoogleDriveAttachment) (confirmed : bool) : Request :=
  {| body := {| content := option_map JS.text text; socketId := Some "sock-1";
                googleDriveAttachment := gd |};
     fileInfo := Some {| file := f; filename := "cat.png" |};
     accountCache := {| emailConfirmed := confirmed;
                        user := {| user_id := "alice"; badges := 0 |} |};
     serverCache := Some {| server_id := "srv"; public := true |};
     channelCache := sample_channel |}.

Definition sample_image : UploadedImage :=
  {| image_path := "chan/1/cat.png"; image_width := 640; image_height := 480 |}.

Definition sample_drive : GoogleDriveAttachment :=
  {| gd_id := Some "drive-1"; gd_mime := Some "image/png" |}.

End MessageCreate.

(** ** routes/posts/postCreate.ts *)

Module PostCreate.
Import Eff.

Record Body := {
  content : option JS.Text;
  postId : option string
}.

Record Request := {
  body : Body;
  fileInfo : option MessageCreate.FileInfo;
  user_id : string
}.

Record Attachment := {
  width : option Z;
  height : option Z;
  path : string
}.

Record CreatePostOpts := {
  cp_content : option JS.Text;
  cp_userId : string;
  cp_commentToId : option string;
  cp_attachment : option Attachment
}.

Record Post := { post_id : string }.

Inductive Json :=
| ValidateErrorJson (e : string)
| ErrorJson (message : string)
| PostJson (p : Post).

Record Response := {
  status : Z;
  json : Json
}.

Inductive Effect :=
| UploadImage (f : MessageCreate.File) (filename userId : string)
| CreatePost (opts : CreatePostOpts).

(** What the route imports: common/errorHandler, common/nerimityCDN and
    services/Post. *)
Record Env := {
  customExpressValidatorResult : Request → option string;
  uploadImage : MessageCreate.File → string → string → MessageCreate.UploadResult;
  createPost : CreatePostOpts → Post
}.

(** [req.fileInfo?.file] *)
Definition requestFile (req : Request) : option MessageCreate.File :=
  match fileInfo req with
  | None => None
  | Some info => MessageCreate.file info
  end.

(** Lines 51-62: the upload; its error is not looked at. *)
Definition upload (env : Env) (req : Request)
  : Run Effect string (option Attachment) :=
  match fileInfo req with
  | Some info =>
      match MessageCreate.file info with
      | Some f =>
          tell (UploadImage f (MessageCreate.filename info) (user_id req));;
          let '(uploadedImage, err) :=
            uploadImage env f (MessageCreate.filename info) (user_id req) in
          match uploadedImage with
          | Some img =>
              ret (Some {| width := Some (MessageCreate.image_width img);
                           height := Some (MessageCreate.image_height img);
                           path := MessageCreate.image_path img |})
          | None => ret None
          end
      | None => ret None
      end
  | None => ret None
  end.

(** Lines 38-74. *)
Definition route (env : Env) (req : Request) : Run Effect string Response :=
  match customExpressValidatorResult env req with
  | Some validateError =>
      ret {| status := 400; json := ValidateErrorJson validateError |}
  | None =>
      if JSText.blank (content (body req))
         && negb (bool_decide (is_Some (requestFile req)))
      then ret {| status := 400;
                  json := ErrorJson "content or attachment is required." |}
      else
        attachment ← upload env req;
        let opts := {| cp_content := content (body req);
                       cp_userId := user_id req;
                       cp_commentToId := postId (body req);
                       cp_attachment := attachment |} in
        tell (CreatePost opts);;
        ret {| status := 200; json := PostJson (createPost env opts) |}
  end.

Definition sample_env (up : MessageCreate.UploadResult) : Env :=
  {| customExpressValidatorResult := λ _, None;
     uploadImage := λ _ _ _, up;
     createPost := λ _, {| post_id := "p1" |} |}.

Definition sample_request (text : option string)
    (f : option MessageCreate.File) : Request :=
  {| body := {| content := option_map JS.text text; postId := None |};
     fileInfo := Some {| MessageCreate.file := f;
                         MessageCreate.filename := "cat.png" |};
     user_id := "alice" |}.

End PostCreate.

(** ** The route of [userDeleteAccount] *)

Module DeleteAccount.
Import Eff.

Record Request := {
  password : option string;
  account_id : string;
  user_id : string
}.

Record Account := { account_password : string }.

(** What [prisma.account.findUnique] settles to. *)
Inductive Lookup :=
| LookupRejected
| LookupResolved (a : option Account).

Inductive Json :=
| ValidateErrorJson (e : string)
| ErrorJson (message : string) (path : option string)
| ServiceErrorJson (e : string)
| StatusTrue.

Record Response := {
  status : Z;
  json : Json
}.

Inductive Effect :=
| FindUnique (accountId : string)
| CheckUserPassword (hash : string) (password : option string)
| DeleteAccountOf (userId : string).

(** What the route imports: common/errorHandler, common/database,
    services/UserAuthentication and services/User/UserManagement. *)
Record Env := {
  customExpressValidatorResult : Request → option string;
  findUnique : string → Lookup;
  checkUserPassword : string → option string → bool;
  (** the error of [deleteAccount], if any *)
  deleteAccount : string → option string
}.

(** [findUnique(...).catch(() => {})] *)
Definition caught (l : Lookup) : option Account :=
  match l with
  | LookupRejected => None
  | LookupResolved a => a
  end.

(** The function [route] of [userDeleteAccount]. *)
Definition route (env : Env) (req : Request) : Run Effect string Response :=
  match customExpressValidatorResult env req with
  | Some validateError =>
      ret {| status := 400; json := ValidateErrorJson validateError |}
  | None =>
      tell (FindUnique (account_id req));;
      match caught (findUnique env (account_id req)) with
      | None =>
          ret {| status := 404;
                 json := ErrorJson "Something went wrong. Try again later." None |}
      | Some account =>
          tell (CheckUserPassword (account_password account) (password req));;
          if negb (checkUserPassword env (account_password account) (password req))
          then ret {| status := 403;
                      json := ErrorJson "Invalid password." (Some "password") |}
          else
            tell (DeleteAccountOf (user_id req));;
            match deleteAccount env (user_id req) with
            | Some error =>
                if JS.str_truthy error
                then ret {| status := 400; json := ServiceErrorJson error |}
                else ret {| status := 200; json := StatusTrue |}
            | None => ret {| status := 200; json := StatusTrue |}
            end
      end
  end.

Definition sample_env (valid : bool) : Env :=
  {| customExpressValidatorResult := λ _, None;
     findUnique := λ _, LookupResolved (Some {| account_password := "$2b$hash" |});
     checkUserPassword := λ _ _, valid;
     deleteAccount := λ _, None |}.

Definition sample_request : Request :=
  {| password := Some "hunter2"; account_id := "acc-1"; user_id := "alice" |}.

End DeleteAccount.

(** ** The moderation route of [updateUser] *)

Module UpdateUser.
Import Eff.

(** A field of the body on which the route calls [trim]. No validator
    runs before the route, so the field may hold any value a parsed
    body can: nothing (or [null]); a string; a value without a [trim]
    entry (a number, a boolean, an array, an object without that key),
    truthy or not; or an object with an entry [trim] that is not
    [null]. A parsed body holds data only, so such an entry is never a
    function. *)
Inductive Field :=
| Nullish
| Str (t : JS.Text)
| Other (truthy : bool)
| TrimEntry.

(** Truthiness of a field: an object is truthy. *)
Definition field_truthy (f : Field) : bool :=
  match f with
  | Nullish => false
  | Str t => JS.text_truthy (Some t)
  | Other b => b
  | TrimEntry => true
  end.

Record Body := {
  email : option string;
  username : Field;
  tag : Field;
  badges : option Z;
  newPassword : Field;
  password : option string;
  emailConfirmed : option bool
}.

Record Request := {
  body : Body;
  userId : string;
  account_id : string;
  moderator_id : string
}.

Record ModeratorAccount := { moderator_password : string }.

Record TargetUser := {
  target_username : JS.Text;
  target_tag : JS.Text;
  target_badges : Z
}.

(** The [data] of [prisma.account.update]: the arguments handed to
    [addToObjectIfExists] for the optional fields, whether the email is
    confirmed, and the new password hash. *)
Record Update := {
  u_email : option string;
  u_confirmEmail : bool;
  u_password : option string;
  u_username : Field;
  u_tag : Field;
  u_badges : option Z
}.

Record UpdatedUser := {
  updated_id : string;
  updated_username : string
}.

Record AuditLog := {
  actionById : string;
  log_username : string;
  log_userId : string
}.

Inductive Json :=
| ValidateErrorJson (e : string)
| ErrorJson (message : string) (path : option string)
| UserJson (u : UpdatedUser).

Record Response := {
  status : Z;
  json : Json
}.

Inductive Effect :=
| FindModerator (accountId : string)
| FindTarget (userId : string)
| FindDuplicate (tag username : JS.Text) (notId : string)
| AccountUpdate (userId : string) (data : Update)
| RemoveAccountCache (userIds : list string)
| EmitAuthenticateError (room : string)
| DisconnectSockets (room : string)
| AuditLogCreate (entry : AuditLog).

(** The effects that only read the database. *)
Definition reads (pre : list Effect) : Prop :=
  ∀ e, In e pre →
    match e with
    | FindModerator _ | FindTarget _ | FindDuplicate _ _ _ => True
    | _ => False
    end.

(** What the route imports: common/errorHandler, common/database,
    common/Bitwise, bcrypt and services/UserAuthentication. Every
    awaited call is taken to resolve. *)
Record Env := {
  customExpressValidatorResult : Request → option string;
  findModerator : string → option ModeratorAccount;
  checkUserPassword : string → option string → bool;
  findTarget : string → option TargetUser;
  hasBit : Z → Z → bool;
  FOUNDER_bit : Z;
  FOUNDER_name : string;
  (** whether another user has the tag and username *)
  findDuplicate : JS.Text → JS.Text → string → bool;
  (** [bcrypt.hash(password, 10)] *)
  hash : JS.Text → string;
  accountUpdate : string → Update → UpdatedUser
}.

(** [f?.trim()]: [undefined] for nothing, the trimmed string for a
    string, a [TypeError] for any other value, whose [trim] is
    [undefined] or is not a function. *)
Definition trim_of (f : Field) : Run Effect string (option JS.Text) :=
  match f with
  | Nullish => ret None
  | Str t => ret (Some (JSText.trim t))
  | Other _ => throw "TypeError"
  | TrimEntry => throw "TypeError"
  end.

(** [f?.trim?.()]: as [trim_of], but [undefined] for a value whose
    [trim] is [undefined]. *)
Definition trim_if_any (f : Field) : Run Effect string (option JS.Text) :=
  match f with
  | Nullish => ret None
  | Str t => ret (Some (JSText.trim t))
  | Other _ => ret None
  | TrimEntry => throw "TypeError"
  end.

(** [f?.trim() || fallback] *)
Definition trimmed_or (f : Field) (fallback : JS.Text)
  : Run Effect string JS.Text :=
  t ← trim_of f;
  ret (if JS.text_truthy t then default [] t else fallback).

(** Lines 105-125: the update, [pw] being the value of
    [body.newPassword?.trim?.()]. When it is truthy the new password is
    a string and [body.newPassword.trim()] is [pw] again. *)
Definition updateOf (env : Env) (b : Body) (pw : option JS.Text) : Update :=
  {| u_email := email b;
     u_confirmEmail := bool_decide (is_Some (emailConfirmed b));
     u_password :=
       if JS.text_truthy pw then Some (hash env (default [] pw)) else None;
     u_username := username b;
     u_tag := tag b;
     u_badges := badges b |}.

(** Lines 105-158: the update and what follows it. *)
Definition applyUpdate (env : Env) (req : Request) : Run Effect string Response :=
  pw ← trim_if_any (newPassword (body req));
  let update := updateOf env (body req) pw in
  tell (AccountUpdate (userId req) update);;
  let updated := accountUpdate env (userId req) update in
  tell (RemoveAccountCache [userId req]);;
  changed ← trim_of (newPassword (body req));
  (if JS.text_truthy changed then
     tell (EmitAuthenticateError (userId req));;
     tell (DisconnectSockets (userId req))
   else ret tt);;
  tell (AuditLogCreate {| actionById := moderator_id req;
                          log_username := updated_username updated;
                          log_userId := updated_id updated |});;
  ret {| status := 200; json := UserJson updated |}.

(** Lines 87-103: the search for another user with the tag and
    username. *)
Definition checkDuplicate (env : Env) (req : Request) (account : TargetUser)
  : Run Effect string Response :=
  if field_truthy (tag (body req)) || field_truthy (username (body req)) then
    t ← trimmed_or (tag (body req)) (target_tag account);
    u ← trimmed_or (username (body req)) (target_username account);
    tell (FindDuplicate t u (userId req));;
    if findDuplicate env t u (userId req) then
      ret {| status := 403;
             json := ErrorJson "Someone already has this combination of tag and username." None |}
    else applyUpdate env req
  else applyUpdate env req.

(** Lines 39-159. *)
Definition route (env : Env) (req : Request) : Run Effect string Response :=
  match customExpressValidatorResult env req with
  | Some validateError =>
      ret {| status := 400; json := ValidateErrorJson validateError |}
  | None =>
      tell (FindModerator (account_id req));;
      match findModerator env (account_id req) with
      | None =>
          ret {| status := 404;
                 json := ErrorJson "Something went wrong. Try again later." None |}
      | Some moderatorAccount =>
          if negb (checkUserPassword env (moderator_password moderatorAccount)
                     (password (body req)))
          then ret {| status := 403;
                      json := ErrorJson "Invalid password." (Some "password") |}
          else
            tell (FindTarget (userId req));;
            match findTarget env (userId req) with
            | None =>
                ret {| status := 404;
                       json := ErrorJson "User does not exist." None |}
            | Some account =>
                match badges (body req) with
                | Some newBadges =>
                    let alreadyIsFounder :=
                      hasBit env (target_badges account) (FOUNDER_bit env) in
                    let updatedIsFounder :=
                      hasBit env newBadges (FOUNDER_bit env) in
                    if negb (Bool.eqb alreadyIsFounder updatedIsFounder) then
                      ret {| status := 403;
                             json := ErrorJson ("Cannot modify the "
                                                +:+ FOUNDER_name env
                                                +:+ " badge") None |}
                    else checkDuplicate env req account
                | None => checkDuplicate env req account
                end
            end
      end
  end.

Definition sample_env (valid : bool) : Env :=
  {| customExpressValidatorResult := λ _, None;
     findModerator := λ _, Some {| moderator_password := "$2b$mod" |};
     checkUserPassword := λ _ _, valid;
     findTarget := λ _, Some {| target_username := JS.text "bob";
                                target_tag := JS.text "0001";
                                target_badges := 0 |};
     hasBit := MessageCreate.mask;
     FOUNDER_bit := 1;
     FOUNDER_name := "Founder";
     findDuplicate := λ _ _ _, false;
     hash := λ pw, "$2b$" +:+ string_of_list_ascii (map ascii_of_N pw);
     accountUpdate := λ uid _, {| updated_id := uid; updated_username := "bob" |} |}.

Definition sample_request (b : option Z) (pw : Field) : Request :=
  {| body := {| email := None; username := Nullish; tag := Nullish; badges := b;
                newPassword := pw; password := Some "modpass";
                emailConfirmed := None |};
     userId := "bob-id"; account_id := "acc-mod"; moderator_id := "mod-id" |}.


End UpdateUser.

(** * Properties *)

(** ** JavaScript helpers *)

Lemma str_truthy_true (s : string) : JS.str_truthy s = true ↔ s ≠ "".
Proof. destruct s; simpl; split; intros; congruence. Qed.

Lemma str_truthy_false (s : string) : JS.str_truthy s = false ↔ s = "".
Proof. destruct s; simpl; split; intros; congruence. Qed.

Lemma truthy_Some (v : option string) :
  JS.truthy v = true ↔ ∃ s, v = Some s ∧ s ≠ "".
Proof.
  destruct v as [s|]; simpl.
  - rewrite str_truthy_true. split.
    + intros H. exists s. auto.
    + intros (s' & [= <-] & H). exact H.
  - split; [discriminate | intros (s & [=] & _)].
Qed.

Lemma flag_negb_false (b : option bool) : JS.flag b = false ↔ b ≠ Some true.
Proof. destruct b as [[|]|]; simpl; split; intros; congruence. Qed.

(** ** middleware/rateLimit *)

Section RateLimitFacts.
Import RateLimit.

Lemma rateLimit_calls_store_once {Store : Type}
    (check : Store → CheckArgs → Store * Ttl) opts st req :
  fst (fst (rateLimit Store check opts st req)) =
  fst (check st {| id := rateLimitKey opts req;
                   arg_expireMS := expireMS opts;
                   arg_requestCount := requestCount opts |}).
Proof.
  unfold rateLimit.
  destruct (check st _) as [st' ttl]; simpl.
  destruct ttl as [|ms]; simpl; [reflexivity|].
  destruct (negb (ms =? 0)); simpl; [|reflexivity].
  destruct (JS.flag (nextIfRatedLimited opts)); reflexivity.
Qed.

Lemma keys_passed_eq opts req : keys_passed opts req = [rateLimitKey opts req].
Proof. reflexivity. Qed.

(** C2, as the spec states it, fails when the action name is empty:
    with [useIP] set and no [globalLimit], the key handed to the
    counter store for a request from [::1] is ["==1"], not ["==1-"]. *)
Lemma rateLimit_key_empty_name_counterexample :
  JS.flag (globalLimit unnamed_ip_options) = false
  ∧ keys_passed unnamed_ip_options local_request = [Some "==1"]
  ∧ keys_passed unnamed_ip_options local_request ≠
      [Some (JS.template (identity unnamed_ip_options local_request)
             +:+ "-" +:+ name unnamed_ip_options)].
Proof. repeat split. intros H. discriminate H. Qed.

Lemma rateLimitKey_unfold (opts : Options) (req : Request) :
  rateLimitKey opts req =
    (if JS.flag (globalLimit opts) then Some (name opts)
     else if JS.str_truthy (name opts)
          then Some (JS.template (identity opts req) +:+ "-" +:+ name opts)
          else identity opts req).
Proof.
  unfold rateLimitKey, identity.
  destruct (JS.flag (globalLimit opts)); simpl; reflexivity.
Qed.

Lemma identity_unfold (opts : Options) (req : Request) :
  identity opts req =
    (if JS.flag (useIP opts) then Some (JS.replace_colons (userIP req))
     else option_map (λ a, user_id (user a)) (accountCache req)).
Proof.
  unfold identity, account_user_id.
  destruct (JS.flag (useIP opts)); [reflexivity|].
  destruct (accountCache req); reflexivity.
Qed.

(** The composite key in the three cases of the spec. *)
Lemma rateLimit_key_user opts req a :
  JS.flag (globalLimit opts) = false → JS.flag (useIP opts) = false →
  name opts ≠ "" → accountCache req = Some a →
  rateLimitKey opts req = Some (user_id (user a) +:+ "-" +:+ name opts).
Proof.
  intros Hg Hip Hn Ha. rewrite rateLimitKey_unfold, identity_unfold.
  apply str_truthy_true in Hn. rewrite Hg, Hn, Hip, Ha. reflexivity.
Qed.

Lemma rateLimit_key_ip opts req :
  JS.flag (globalLimit opts) = false → JS.flag (useIP opts) = true →
  name opts ≠ "" →
  rateLimitKey opts req =
    Some (JS.replace_colons (userIP req) +:+ "-" +:+ name opts).
Proof.
  intros Hg Hip Hn. rewrite rateLimitKey_unfold, identity_unfold.
  apply str_truthy_true in Hn. rewrite Hg, Hn, Hip. reflexivity.
Qed.

Lemma rateLimit_key_global opts req :
  JS.flag (globalLimit opts) = true → rateLimitKey opts req = Some (name opts).
Proof.
  intros Hg. rewrite rateLimitKey_unfold, Hg. reflexivity.
Qed.

Lemma rateLimit_key_unnamed opts req :
  JS.flag (globalLimit opts) = false → name opts = "" →
  rateLimitKey opts req = identity opts req.
Proof.
  intros Hg Hn. rewrite rateLimitKey_unfold, Hg, Hn. reflexivity.
Qed.

(** C2 (amended): the key handed to the counter store is the action
    name alone when [globalLimit] is set; otherwise it is
    identity + "-" + name when the name is not empty and the identity
    alone when it is, the identity being the normalized IP when [useIP]
    is set and the requesting user's id otherwise (rendered
    ["undefined"] in the composite key when the request has no
    account). *)
Theorem rateLimit_key_spec (opts : Options) (req : Request) :
  rateLimitKey opts req =
    (if JS.flag (globalLimit opts) then Some (name opts)
     else if JS.str_truthy (name opts)
          then Some (JS.template (identity opts req) +:+ "-" +:+ name opts)
          else identity opts req)
  ∧ identity opts req =
      (if JS.flag (useIP opts) then Some (JS.replace_colons (userIP req))
       else option_map (λ a, user_id (user a)) (accountCache req))
  ∧ keys_passed opts req = [rateLimitKey opts req]
  ∧ ∀ (Store : Type) (check : Store → CheckArgs → Store * Ttl) (st : Store),
      fst (fst (rateLimit Store check opts st req)) =
      fst (check st {| id := rateLimitKey opts req;
                       arg_expireMS := expireMS opts;
                       arg_requestCount := requestCount opts |}).
Proof.
  split; [|split; [|split]].
  - apply rateLimitKey_unfold.
  - apply identity_unfold.
  - apply keys_passed_eq.
  - intros Store check st. apply rateLimit_calls_store_once.
Qed.

Example rateLimit_key_alice :
  rateLimitKey create_message_options alice_request = Some "alice-create_message".
Proof. reflexivity. Qed.

(** C6: when the counter store returns a remaining ttl and
    [nextIfRatedLimited] is set, the middleware stores the ttl in
    [req.rateLimited] and calls [next]; the store is left as the one
    call to [checkRateLimited] left it, the same as without the
    option. *)
Theorem rateLimit_passthrough (Store : Type)
    (check : Store → CheckArgs → Store * Ttl)
    (opts : Options) (st st' : Store) (req : Request) (ms : Z) :
  check st {| id := rateLimitKey opts req;
              arg_expireMS := expireMS opts;
              arg_requestCount := requestCount opts |} = (st', TtlNum ms) →
  ms ≠ 0 →
  JS.flag (nextIfRatedLimited opts) = true →
  rateLimit Store check opts st req = (st', set_rateLimited req ms, Next)
  ∧ rateLimited (set_rateLimited req ms) = Some ms
  ∧ ∀ b, fst (fst (rateLimit Store check (with_nextIfRatedLimited opts b) st req))
         = st'.
Proof.
  intros Hcheck Hms Hnext. split; [|split].
  - unfold rateLimit. rewrite Hcheck. simpl.
    apply Z.eqb_neq in Hms. rewrite Hms, Hnext. reflexivity.
  - reflexivity.
  - intros b. rewrite rateLimit_calls_store_once.
    change (rateLimitKey (with_nextIfRatedLimited opts b) req)
      with (rateLimitKey opts req).
    simpl. rewrite Hcheck. reflexivity.
Qed.

Lemma rateLimit_passthrough_witness :
  rateLimit Z single_counter_check create_message_options 20 alice_request
  = (21, set_rateLimited alice_request 1500, Next)
  ∧ rateLimited (set_rateLimited alice_request 1500) = Some 1500
  ∧ ∀ b, fst (fst (rateLimit Z single_counter_check
                     (with_nextIfRatedLimited create_message_options b)
                     20 alice_request)) = 21.
Proof.
  apply (rateLimit_passthrough Z single_counter_check create_message_options
           20 21 alice_request 1500).
  - reflexivity.
  - lia.
  - reflexivity.
Defined.

End RateLimitFacts.

(** ** emits/Server *)

Section EmitsFacts.
Import Eff Emits.

Variable Forwarded : Type.
Variable hasBit : Z → Z → bool.
Variable PRIVATE_CHANNEL_bit : Z.

Local Abbreviation joinChannel := (Emits.joinChannel Forwarded hasBit PRIVATE_CHANNEL_bit).
Local Abbreviation joinChannels := (Emits.joinChannels Forwarded hasBit PRIVATE_CHANNEL_bit).
Local Abbreviation joinsChannel := (Emits.joinsChannel hasBit PRIVATE_CHANNEL_bit).
Local Abbreviation isPrivateChannel := (Emits.isPrivateChannel hasBit PRIVATE_CHANNEL_bit).
Local Abbreviation emitServerJoined := (Emits.emitServerJoined Forwarded hasBit PRIVATE_CHANNEL_bit).

Lemma joinChannel_run (srv : Server) (uid : string) (c : Channel) :
  joinChannel srv uid c =
    (if joinsChannel srv uid c
     then [SocketsJoin (io_in uid) (channel_id c)] else [],
     Returned tt).
Proof.
  unfold Emits.joinChannel, Emits.joinsChannel.
  destruct (Emits.isPrivateChannel _ _ c), (isAdmin srv uid); reflexivity.
Qed.

Lemma joinChannels_run (srv : Server) (uid : string) (chans : list Channel) :
  joinChannels srv uid chans =
    (map (λ c, SocketsJoin (io_in uid) (channel_id c))
         (List.filter (joinsChannel srv uid) chans),
     Returned tt).
Proof.
  induction chans as [|c rest IH]; [reflexivity|].
  cbn [Emits.joinChannels List.filter].
  unfold mbind, run_bind, bind. rewrite joinChannel_run, IH.
  destruct (joinsChannel srv uid c); reflexivity.
Qed.

Lemma joinChannel_traces (srv : Server) (uid : string) (chans : list Channel) :
  concat (map (λ c, trace (joinChannel srv uid c)) chans) =
  map (λ c, SocketsJoin (io_in uid) (channel_id c))
      (List.filter (joinsChannel srv uid) chans).
Proof.
  induction chans as [|c rest IH]; [reflexivity|].
  cbn [List.filter map concat]. rewrite joinChannel_run, IH. unfold trace.
  destruct (joinsChannel srv uid c); reflexivity.
Qed.

Lemma joinsChannel_iff (srv : Server) (uid : string) (c : Channel) :
  joinsChannel srv uid c = true
  ↔ isPrivateChannel c = false ∨ createdById srv = uid.
Proof.
  unfold Emits.joinsChannel, isAdmin.
  rewrite orb_true_iff, negb_true_iff, String.eqb_eq. reflexivity.
Qed.

Lemma emitServerJoined_run (opts : ServerJoinOpts Forwarded) (member : JoinedMember) :
  joinedMember opts = Some member →
  user_id (user member) ≠ "" →
  emitServerJoined opts =
    ([Emit (io_to (server_id (server opts))) SERVER_MEMBER_JOINED
        (MemberJoinedPayload (server_id (server opts)) member);
      SocketsJoin (io_in (user_id (user member))) (server_id (server opts))]
     ++ map (λ c, SocketsJoin (io_in (user_id (user member))) (channel_id c))
          (List.filter (joinsChannel (server opts) (user_id (user member)))
             (channels opts))
     ++ [Emit (io_in (user_id (user member))) SERVER_JOINED
           (ServerJoinedPayload (server opts) (members opts) (channels opts)
              (roles opts) (memberPresences opts) (voiceChannelUsers opts))],
     Returned tt).
Proof.
  intros Hm Hid. unfold Emits.emitServerJoined, joinedMember_user_id.
  rewrite Hm. simpl JS.truthy.
  apply str_truthy_true in Hid. rewrite Hid. simpl negb. cbv iota.
  unfold mbind, run_bind, bind, emit, socketsJoin, tell.
  rewrite joinChannels_run. reflexivity.
Qed.

Lemma emitServerJoined_throws (opts : ServerJoinOpts Forwarded) :
  JS.truthy (joinedMember_user_id opts) = false →
  emitServerJoined opts = ([], Thrown "User not found.").
Proof.
  unfold Emits.emitServerJoined, joinedMember_user_id.
  destruct (joinedMember opts) as [member|]; [|reflexivity].
  simpl. intros ->. reflexivity.
Qed.

(** C7: on a server join, the joining user's sockets are joined to a
    channel's room exactly when the channel is not private or the user
    created the server; the loop handles every channel once, in order. *)
Theorem emitServerJoined_channel_scopes
    (opts : ServerJoinOpts Forwarded) (member : JoinedMember) :
  joinedMember opts = Some member →
  user_id (user member) ≠ "" →
  let uid := user_id (user member) in
  let srv := server opts in
  trace (emitServerJoined opts) =
    [Emit (io_to (server_id srv)) SERVER_MEMBER_JOINED
       (MemberJoinedPayload (server_id srv) member);
     SocketsJoin (io_in uid) (server_id srv)]
    ++ concat (map (λ c, trace (joinChannel srv uid c)) (channels opts))
    ++ [Emit (io_in uid) SERVER_JOINED
          (ServerJoinedPayload srv (members opts) (channels opts)
             (roles opts) (memberPresences opts) (voiceChannelUsers opts))]
  ∧ (∀ c, trace (joinChannel srv uid c) =
          if joinsChannel srv uid c
          then [SocketsJoin (io_in uid) (channel_id c)] else [])
  ∧ (∀ c, joinsChannel srv uid c = true
          ↔ isPrivateChannel c = false ∨ createdById srv = uid)
  ∧ (∀ c, joinsChannel srv uid c = false
          ↔ isPrivateChannel c = true ∧ createdById srv ≠ uid).
Proof.
  intros Hm Hid uid srv. split; [|split; [|split]].
  - rewrite joinChannel_traces, (emitServerJoined_run opts member Hm Hid).
    reflexivity.
  - intros c. rewrite joinChannel_run. reflexivity.
  - intros c. apply joinsChannel_iff.
  - intros c. rewrite <- not_true_iff_false, joinsChannel_iff.
    destruct (isPrivateChannel c); split.
    + intros H. split; [reflexivity|]. intros E. apply H. right. exact E.
    + intros [_ H] [E|E]; [discriminate | contradiction].
    + intros H. exfalso. apply H. left. reflexivity.
    + intros [E _]. discriminate.
Qed.

(** C10: [emitServerJoined] throws ['User not found.'] when the joined
    member's user id is absent, before any emit or join; when the id is
    present it returns normally after its two emits and its joins. *)
Theorem emitServerJoined_user_not_found (opts : ServerJoinOpts Forwarded) :
  (JS.truthy (joinedMember_user_id opts) = false →
   trace (emitServerJoined opts) = []
   ∧ completion (emitServerJoined opts) = Thrown "User not found.")
  ∧ (JS.truthy (joinedMember_user_id opts) = true →
     completion (emitServerJoined opts) = Returned tt
     ∧ ∃ member joins,
         joinedMember opts = Some member
         ∧ trace (emitServerJoined opts) =
             [Emit (io_to (server_id (server opts))) SERVER_MEMBER_JOINED
                (MemberJoinedPayload (server_id (server opts)) member);
              SocketsJoin (io_in (user_id (user member)))
                (server_id (server opts))]
             ++ map (SocketsJoin (io_in (user_id (user member)))) joins
             ++ [Emit (io_in (user_id (user member))) SERVER_JOINED
                   (ServerJoinedPayload (server opts) (members opts)
                      (channels opts) (roles opts) (memberPresences opts)
                      (voiceChannelUsers opts))]).
Proof.
  split.
  - intros Habsent. rewrite (emitServerJoined_throws opts Habsent).
    split; reflexivity.
  - intros Hpresent. apply truthy_Some in Hpresent as (uid & Huid & Hne).
    unfold joinedMember_user_id in Huid.
    destruct (joinedMember opts) as [member|] eqn:Hm; [|discriminate].
    injection Huid as Huid. subst uid.
    rewrite (emitServerJoined_run opts member Hm Hne).
    split; [reflexivity|].
    exists member,
      (map channel_id
         (List.filter (joinsChannel (server opts) (user_id (user member)))
            (channels opts))).
    split; [reflexivity|]. unfold trace. simpl fst.
    rewrite map_map. reflexivity.
Qed.

Lemma emitServerMessageCreated_echo (message : Message Forwarded) (s : string) :
  s ≠ "" →
  emitServerMessageCreated message (Some s) =
    ([Emit {| rooms := [channelId message]; exceptRooms := [s] |}
        MESSAGE_CREATED (MessagePayload message);
      Emit {| rooms := [s]; exceptRooms := [] |}
        MESSAGE_CREATED (SocketMessagePayload (Some s) message)],
     Returned tt).
Proof.
  intros Hs. unfold emitServerMessageCreated. simpl JS.truthy.
  apply str_truthy_true in Hs. rewrite Hs. reflexivity.
Qed.

Lemma emitServerMessageCreated_plain (message : Message Forwarded)
    (socketId : JS.StrOrUndef) :
  JS.truthy socketId = false →
  emitServerMessageCreated message socketId =
    ([Emit {| rooms := [channelId message]; exceptRooms := [] |}
        MESSAGE_CREATED (SocketMessagePayload socketId message)],
     Returned tt).
Proof.
  intros Hs. unfold emitServerMessageCreated. rewrite Hs. reflexivity.
Qed.

(** C8: with a socket id, [MESSAGE_CREATED] is emitted twice: to the
    channel room except the originating socket, with payload
    [{ message }], and to the originating socket alone, with payload
    [{ socketId, message }]; without one it is emitted once, to the
    whole channel room. *)
Theorem emitServerMessageCreated_emits (message : Message Forwarded) :
  (∀ s : string, s ≠ "" →
     trace (emitServerMessageCreated message (Some s)) =
       [Emit {| rooms := [channelId message]; exceptRooms := [s] |}
          MESSAGE_CREATED (MessagePayload message);
        Emit {| rooms := [s]; exceptRooms := [] |}
          MESSAGE_CREATED (SocketMessagePayload (Some s) message)]
     ∧ completion (emitServerMessageCreated message (Some s)) = Returned tt
     ∧ MessagePayload message ≠ SocketMessagePayload (Some s) message)
  ∧ trace (emitServerMessageCreated message None) =
      [Emit {| rooms := [channelId message]; exceptRooms := [] |}
         MESSAGE_CREATED (SocketMessagePayload None message)]
  ∧ completion (emitServerMessageCreated message None) = Returned tt.
Proof.
  split; [|split].
  - intros s Hs. rewrite (emitServerMessageCreated_echo message s Hs).
    repeat split. discriminate.
  - reflexivity.
  - reflexivity.
Qed.

End EmitsFacts.

Lemma emitServerJoined_channel_scopes_witness :
  Eff.trace (Emits.emitServerJoined unit Emits.mask_hasBit 1
           (Emits.sample_join (Some "newcomer"))) =
    [Emits.Emit (Emits.io_to "srv") Emits.SERVER_MEMBER_JOINED
       (Emits.MemberJoinedPayload "srv"
          {| Emits.user := {| Emits.user_id := "newcomer" |} |});
     Emits.SocketsJoin (Emits.io_in "newcomer") "srv";
     Emits.SocketsJoin (Emits.io_in "newcomer") "general";
     Emits.SocketsJoin (Emits.io_in "newcomer") "rules";
     Emits.Emit (Emits.io_in "newcomer") Emits.SERVER_JOINED
       (Emits.ServerJoinedPayload Emits.sample_server tt
          Emits.sample_channels tt tt tt)].
Proof.
  destruct (emitServerJoined_channel_scopes unit Emits.mask_hasBit 1
              (Emits.sample_join (Some "newcomer"))
              {| Emits.user := {| Emits.user_id := "newcomer" |} |}
              eq_refl ltac:(discriminate)) as [Htrace _].
  rewrite Htrace. reflexivity.
Defined.

Lemma emitServerJoined_user_not_found_witness :
  (Eff.trace (Emits.emitServerJoined unit Emits.mask_hasBit 1
                (Emits.sample_join None)) = []
   ∧ Eff.completion (Emits.emitServerJoined unit Emits.mask_hasBit 1
                       (Emits.sample_join None))
     = Eff.Thrown "User not found.")
  ∧ Eff.completion (Emits.emitServerJoined unit Emits.mask_hasBit 1
                      (Emits.sample_join (Some "owner")))
    = Eff.Returned tt.
Proof.
  split.
  - apply (emitServerJoined_user_not_found unit Emits.mask_hasBit 1
             (Emits.sample_join None)). reflexivity.
  - apply (emitServerJoined_user_not_found unit Emits.mask_hasBit 1
             (Emits.sample_join (Some "owner"))). reflexivity.
Defined.

Lemma emitServerMessageCreated_emits_witness :
  Eff.trace (Emits.emitServerMessageCreated Emits.sample_message (Some "sock-1")) =
    [Emits.Emit {| Emits.rooms := ["general"]; Emits.exceptRooms := ["sock-1"] |}
       Emits.MESSAGE_CREATED (Emits.MessagePayload Emits.sample_message);
     Emits.Emit {| Emits.rooms := ["sock-1"]; Emits.exceptRooms := [] |}
       Emits.MESSAGE_CREATED
       (Emits.SocketMessagePayload (Some "sock-1") Emits.sample_message)].
Proof.
  apply (emitServerMessageCreated_emits unit Emits.sample_message).
  discriminate.
Defined.

(** ** fcm/pushNotification.ts: who is notified *)

Section ResolverFacts.
Import Eff Push.

Variable ALL : Z.
Variable MENTIONS_ONLY : Z.

Local Abbreviation serverTokenWhere := (Push.serverTokenWhere ALL MENTIONS_ONLY).
Local Abbreviation serverTokens := (Push.serverTokens ALL MENTIONS_ONLY).
Local Abbreviation pushEligible := (Push.pushEligible ALL MENTIONS_ONLY).

Lemma in__In (x : string) (l : list string) : in_ x l = true ↔ In x l.
Proof.
  unfold in_. rewrite existsb_exists. split.
  - intros (y & Hy & Heq). apply String.eqb_eq in Heq. subst y. exact Hy.
  - intros Hx. exists x. split; [exact Hx | apply String.eqb_refl].
Qed.

Lemma some_exists {A} (p : A → bool) (l : list A) :
  some p l = true ↔ ∃ x, In x l ∧ p x = true.
Proof. apply existsb_exists. Qed.

Lemma none_forall {A} (p : A → bool) (l : list A) :
  none p l = true ↔ ∀ x, In x l → p x = false.
Proof.
  unfold none. rewrite negb_true_iff, <- not_true_iff_false, existsb_exists.
  split.
  - intros Hno x Hx. apply not_true_iff_false. intros Hp. apply Hno. eauto.
  - intros Hall (x & Hx & Hp). rewrite (Hall x Hx) in Hp. discriminate.
Qed.

Lemma member_clause (u : User) (sid : string) :
  some (λ s, String.eqb (server_id s) sid) (servers u) = true ↔ isMember u sid.
Proof.
  rewrite some_exists. unfold isMember.
  split; intros (s & Hs & Heq); exists s; split; auto;
    apply String.eqb_eq; exact Heq.
Qed.

Lemma none_clause (u : User) (sid : string) :
  none (λ s, String.eqb (serverId s) sid) (joinedServerSettings u) = true
  ↔ noRecord u sid.
Proof.
  rewrite none_forall. unfold noRecord.
  split; intros H s Hs; specialize (H s Hs); apply String.eqb_neq; exact H.
Qed.

Lemma all_clause (u : User) (sid : string) (mode : Z) :
  some (λ s, String.eqb (serverId s) sid && (notificationPingMode s =? mode))
       (joinedServerSettings u) = true
  ↔ hasRecord u sid mode.
Proof.
  rewrite some_exists. unfold hasRecord.
  split; intros (s & Hs & H); exists s.
  - apply andb_true_iff in H as [H1 H2].
    apply String.eqb_eq in H1. apply Z.eqb_eq in H2. auto.
  - destruct H as [H1 H2]. split; [exact Hs|].
    apply andb_true_iff. split; [apply String.eqb_eq | apply Z.eqb_eq]; assumption.
Qed.

Lemma mentions_clause (u : User) (sid : string) (mentioned : list string) :
  settingsOwned u →
  some (λ s, String.eqb (serverId s) sid && in_ (userId s) mentioned
             && (notificationPingMode s =? MENTIONS_ONLY))
       (joinedServerSettings u) = true
  ↔ hasRecord u sid MENTIONS_ONLY ∧ In (user_id u) mentioned.
Proof.
  intros Hown. rewrite some_exists. unfold hasRecord. split.
  - intros (s & Hs & H).
    apply andb_true_iff in H as [H H3]. apply andb_true_iff in H as [H1 H2].
    apply String.eqb_eq in H1. apply Z.eqb_eq in H3. apply in__In in H2.
    rewrite (Hown s Hs) in H2. split; [exists s|]; auto.
  - intros [(s & Hs & H1 & H3) H2]. exists s. split; [exact Hs|].
    rewrite !andb_true_iff. repeat split.
    + apply String.eqb_eq. exact H1.
    + apply in__In. rewrite (Hown s Hs). exact H2.
    + apply Z.eqb_eq. exact H3.
Qed.

Lemma serverTokenWhere_spec (sid : string) (mentioned : list string)
    (row : FirebaseMessagingToken) :
  settingsOwned (owner row) →
  serverTokenWhere sid mentioned row = true
  ↔ isMember (owner row) sid ∧ pushEligible (owner row) sid mentioned.
Proof.
  intros Hown. unfold Push.serverTokenWhere, Push.pushEligible.
  fold (owner row).
  rewrite andb_true_iff, !orb_true_iff, member_clause, none_clause,
    (mentions_clause _ _ _ Hown), all_clause.
  tauto.
Qed.

Lemma example_db_tokens :
  ALL ≠ MENTIONS_ONLY →
  serverTokens (example_db ALL MENTIONS_ONLY) "srv" example_message
  = ["tA"; "tC"; "tD"].
Proof.
  intros Hne. unfold Push.serverTokens, example_db, Push.serverTokenWhere.
  cbn. rewrite !Z.eqb_refl.
  apply not_eq_sym in Hne. apply Z.eqb_neq in Hne. rewrite Hne.
  reflexivity.
Qed.

(** C1: a token row is selected for a server message exactly when its
    owner is a member of the server and has no settings record for the
    server, or has a [MENTIONS_ONLY] record and is mentioned, or has an
    [ALL] record; for A (no record), B ([MENTIONS_ONLY], not mentioned),
    C ([MENTIONS_ONLY], mentioned) and D ([ALL]) the tokens of A, C and
    D are selected. *)
Theorem server_push_targets (db : list FirebaseMessagingToken)
    (sid : string) (message : Message) :
  (∀ u, (∃ row, In row db ∧ owner row = u) → settingsOwned u) →
  let mentionedUserIds := map mention_id (mentions message) in
  let selected := List.filter (serverTokenWhere sid mentionedUserIds) db in
  serverTokens db sid message = map token selected
  ∧ (∀ row, In row selected ↔
            In row db ∧ isMember (owner row) sid
            ∧ (noRecord (owner row) sid
               ∨ (hasRecord (owner row) sid MENTIONS_ONLY
                  ∧ In (user_id (owner row)) mentionedUserIds)
               ∨ hasRecord (owner row) sid ALL))
  ∧ (ALL ≠ MENTIONS_ONLY →
     serverTokens (example_db ALL MENTIONS_ONLY) "srv" example_message
     = ["tA"; "tC"; "tD"]).
Proof.
  intros Hown mentionedUserIds selected. split; [reflexivity|]. split.
  - intros row. unfold selected. rewrite filter_In. split.
    + intros [Hin Hsel]. split; [exact Hin|].
      apply serverTokenWhere_spec; [|exact Hsel].
      apply Hown. exists row. auto.
    + intros [Hin Hrest]. split; [exact Hin|].
      apply serverTokenWhere_spec; [|exact Hrest].
      apply Hown. exists row. auto.
  - apply example_db_tokens.
Qed.

(** C4 (amended): the author plays no part in the selection: the
    tokens selected do not depend on who wrote the message, and a token
    row of the author is selected exactly when the author is a member
    who satisfies one of the three preference rules. *)
Theorem server_push_targets_author (db : list FirebaseMessagingToken)
    (sid : string) (message : Message) :
  (∀ cb, serverTokens db sid (with_createdBy message cb)
         = serverTokens db sid message)
  ∧ (∀ row, In row db → settingsOwned (owner row) →
       user_id (owner row) = createdBy_id (createdBy message) →
       In row (List.filter
                 (serverTokenWhere sid (map mention_id (mentions message))) db)
       ↔ isMember (owner row) sid
         ∧ pushEligible (owner row) sid (map mention_id (mentions message))).
Proof.
  split; [reflexivity|].
  intros row Hin Hown _. rewrite filter_In, (serverTokenWhere_spec _ _ _ Hown).
  tauto.
Qed.

End ResolverFacts.

Lemma rowA_settingsOwned : Push.settingsOwned (Push.owner Push.rowA).
Proof. intros s []. Qed.

Lemma example_db_settingsOwned (u : Push.User) :
  (∃ row, In row (Push.example_db 0 1) ∧ Push.owner row = u) →
  Push.settingsOwned u.
Proof.
  intros (row & Hin & <-) s Hs. simpl in Hin.
  destruct Hin as [<-|[<-|[<-|[<-|[]]]]]; simpl in Hs;
    try destruct Hs as [<-|Hs]; try contradiction; reflexivity.
Qed.

Lemma server_push_targets_witness :
  Push.serverTokens 0 1 (Push.example_db 0 1) "srv" Push.example_message
  = ["tA"; "tC"; "tD"].
Proof.
  apply (server_push_targets 0 1 (Push.example_db 0 1) "srv"
           Push.example_message example_db_settingsOwned).
  lia.
Defined.

(** C4, as the spec states it, fails: A wrote the message, is a member
    of the server and has no settings record, and A's token [tA] is
    among the tokens the push is sent to. *)
Lemma author_token_selected_counterexample :
  Push.user_id (Push.owner Push.rowA)
  = Push.createdBy_id (Push.createdBy Push.example_message)
  ∧ In Push.rowA (Push.example_db 0 1)
  ∧ Push.serverTokens 0 1 (Push.example_db 0 1) "srv" Push.example_message
    = ["tA"; "tC"; "tD"]
  ∧ Eff.trace
      (Push.sendServerPushMessageNotification 0 1 (Some "{}")
         (Push.example_db 0 1) Push.gateway_second_fails "srv"
         Push.example_message Push.example_channel Push.example_server)
    = [Push.SendEachForMulticast
         {| Push.tokens := ["tA"; "tC"; "tD"];
            Push.android_priority := "high";
            Push.data := Push.serverData "srv" Push.example_message
                           Push.example_channel Push.example_server |};
       Push.RemoveFCMTokens ["tC"]].
Proof. repeat split. left. reflexivity. Qed.

Lemma server_push_targets_author_witness :
  In Push.rowA
    (List.filter (Push.serverTokenWhere 0 1 "srv" ["C"]) (Push.example_db 0 1)).
Proof.
  apply (server_push_targets_author 0 1 (Push.example_db 0 1) "srv"
           Push.example_message).
  - left. reflexivity.
  - exact rowA_settingsOwned.
  - reflexivity.
  - split.
    + exists {| Push.server_id := "srv" |}. split; [left|]; reflexivity.
    + left. intros s [].
Defined.

(** ** fcm/pushNotification.ts: dispatch *)

Section DispatchFacts.
Import Eff Push.

Variable ALL : Z.
Variable MENTIONS_ONLY : Z.

Local Abbreviation serverTokens := (Push.serverTokens ALL MENTIONS_ONLY).
Local Abbreviation sendServerPushMessageNotification :=
  (Push.sendServerPushMessageNotification ALL MENTIONS_ONLY).
Local Abbreviation serverMulticast := (Push.serverMulticast ALL MENTIONS_ONLY).

Lemma removal_run (failed : list string) :
  (if bool_decide (failed = []) then ret tt else removeFCMTokens failed)
  = (removal failed, Returned tt) :> Async unit.
Proof. destruct failed; reflexivity. Qed.

Lemma server_push_run (credentials : option string)
    (db : list FirebaseMessagingToken) (gateway : Gateway) (sid : string)
    (message : Message) (channel : ChannelCache) (server : ServerCache) :
  sendServerPushMessageNotification credentials db gateway sid message
    channel server =
  match credentials, serverTokens db sid message with
  | None, _ => ([], Returned tt)
  | Some _, [] => ([], Returned tt)
  | Some _, _ :: _ =>
      let m := serverMulticast db sid message channel server in
      match gateway m with
      | GatewayRejected e => ([SendEachForMulticast m], Thrown e)
      | GatewayResolved r =>
          (SendEachForMulticast m
             :: removal (failedTokensOf (serverTokens db sid message) r),
           Returned tt)
      end
  end.
Proof.
  unfold Push.sendServerPushMessageNotification, Push.serverMulticast.
  destruct credentials as [c|]; [|reflexivity].
  destruct (serverTokens db sid message) as [|t toks] eqn:Htoks;
    [reflexivity|].
  cbn [negb bool_decide decide_rel]. simpl bool_decide at 1. cbv iota.
  unfold mbind, run_bind, bind, sendEachForMulticast.
  destruct (gateway _) as [e|r]; [reflexivity|].
  rewrite removal_run. reflexivity.
Qed.

Lemma dm_push_run (credentials : option string)
    (db : list FirebaseMessagingToken) (gateway : Gateway)
    (message : Message) (channel : ChannelCache) :
  sendDmPushNotification credentials db gateway message channel =
  match credentials, dmTokens db channel with
  | None, _ => ([], Returned tt)
  | Some _, [] => ([], Returned tt)
  | Some _, _ :: _ =>
      let m := dmMulticast db message channel in
      match gateway m with
      | GatewayRejected e => ([SendEachForMulticast m], Thrown e)
      | GatewayResolved r =>
          (SendEachForMulticast m
             :: removal (failedTokensOf (dmTokens db channel) r),
           Returned tt)
      end
  end.
Proof.
  unfold sendDmPushNotification, dmMulticast.
  destruct credentials as [c|]; [|reflexivity].
  destruct (dmTokens db channel) as [|t toks] eqn:Htoks; [reflexivity|].
  cbn [negb bool_decide decide_rel]. simpl bool_decide at 1. cbv iota.
  unfold mbind, run_bind, bind, sendEachForMulticast.
  destruct (gateway _) as [e|r]; [reflexivity|].
  rewrite removal_run. reflexivity.
Qed.

(** *** The tokens that failed *)

Lemma failedTokensOf_zip (toks : list string) (rs : list SendResponse) :
  failedTokensOf toks {| responses := rs |} =
  map fst (List.filter (λ p, bool_decide (is_Some (error (snd p)))
                             && JS.str_truthy (fst p))
             (zip toks rs)).
Proof.
  unfold failedTokensOf. cbn [responses].
  revert toks. induction rs as [|r rs IH]; intros toks.
  - destruct toks; reflexivity.
  - rewrite imap_cons. destruct toks as [|t toks].
    + rewrite (imap_ext _ (λ index sendResponse,
                  match error sendResponse with
                  | None => None
                  | Some _ => ([] : list string) !! index
                  end)) by (intros; reflexivity).
      cbn [List.filter]. replace (JS.truthy _) with false
        by (destruct (error r); reflexivity).
      rewrite (IH []). reflexivity.
    + rewrite (imap_ext _ (λ index sendResponse,
                  match error sendResponse with
                  | None => None
                  | Some _ => toks !! index
                  end)) by (intros; reflexivity).
      cbn [zip_with List.filter fst snd]. specialize (IH toks).
      destruct (error r) as [e|]; cbn.
      * destruct (JS.str_truthy t); cbn; rewrite IH; reflexivity.
      * rewrite IH. reflexivity.
Qed.

Lemma failedTokensOf_errorTokens (toks : list string) (batch : BatchResponse) :
  Forall (λ t, t ≠ "") toks →
  failedTokensOf toks batch = errorTokens toks (responses batch).
Proof.
  intros Hne. destruct batch as [rs]. rewrite failedTokensOf_zip.
  unfold errorTokens. cbn [responses]. f_equal.
  revert rs. induction Hne as [|t toks Ht Htoks IH]; intros rs; [reflexivity|].
  destruct rs as [|r rs]; [reflexivity|].
  cbn [zip_with List.filter fst snd].
  apply str_truthy_true in Ht. rewrite Ht, andb_true_r, IH. reflexivity.
Qed.

Lemma errorTokens_In (toks : list string) (rs : list SendResponse) (t : string) :
  In t (errorTokens toks rs)
  ↔ ∃ i r, toks !! i = Some t ∧ rs !! i = Some r ∧ is_Some (error r).
Proof.
  unfold errorTokens. rewrite in_map_iff. split.
  - intros ([t' r] & <- & Hin). apply filter_In in Hin as [Hin Herr].
    apply list_elem_of_In, elem_of_lookup_zip_with in Hin
      as (i & t'' & r'' & [= <- <-] & Ht & Hr).
    apply bool_decide_eq_true in Herr. exists i, r. auto.
  - intros (i & r & Ht & Hr & Herr). exists (t, r). split; [reflexivity|].
    apply filter_In. split.
    + apply list_elem_of_In, elem_of_lookup_zip_with. exists i, t, r. auto.
    + apply bool_decide_eq_true. exact Herr.
Qed.

Lemma errorTokens_no_error (toks : list string) (rs : list SendResponse) :
  (∀ r, In r rs → error r = None) → errorTokens toks rs = [].
Proof.
  intros Hok. destruct (errorTokens toks rs) as [|t l] eqn:E; [reflexivity|].
  assert (Hin : In t (errorTokens toks rs)) by (rewrite E; left; reflexivity).
  apply errorTokens_In in Hin as (i & r & _ & Hr & Herr).
  apply list_elem_of_lookup_2, list_elem_of_In in Hr.
  rewrite (Hok r Hr) in Herr. destruct Herr as [? [=]].
Qed.

Lemma errorTokens_spared (toks : list string) (rs : list SendResponse)
    (i : nat) (t : string) (r : SendResponse) :
  NoDup toks → toks !! i = Some t → rs !! i = Some r → error r = None →
  ¬ In t (errorTokens toks rs).
Proof.
  intros Hnd Ht Hr Hok Hin.
  apply errorTokens_In in Hin as (j & r' & Ht' & Hr' & Herr).
  assert (i = j) as <- by (eapply NoDup_lookup; eauto).
  rewrite Hr in Hr'. injection Hr' as <-. rewrite Hok in Herr.
  destruct Herr as [? [=]].
Qed.

(** C3: after a gateway call that resolved, the tokens handed to
    [removeFCMTokens] are exactly those whose own response carries an
    error; a token whose response carries none is not among them, and
    when no response carries an error [removeFCMTokens] is not called. *)
Theorem failed_tokens_removed (toks : list string) (batch : BatchResponse) :
  Forall (λ t, t ≠ "") toks →
  let failed := failedTokensOf toks batch in
  failed = errorTokens toks (responses batch)
  ∧ (∀ t, In t failed ↔
          ∃ i r, toks !! i = Some t ∧ responses batch !! i = Some r
                 ∧ is_Some (error r))
  ∧ (NoDup toks → ∀ i t r, toks !! i = Some t →
       responses batch !! i = Some r → error r = None → ¬ In t failed)
  ∧ ((∀ r, In r (responses batch) → error r = None) → removal failed = [])
  ∧ (failed ≠ [] → removal failed = [RemoveFCMTokens failed])
  ∧ (∀ c db gateway sid message channel server,
       serverTokens db sid message = toks → toks ≠ [] →
       gateway (serverMulticast db sid message channel server)
       = GatewayResolved batch →
       sendServerPushMessageNotification (Some c) db gateway sid message
         channel server
       = (SendEachForMulticast (serverMulticast db sid message channel server)
            :: removal failed, Returned tt))
  ∧ (∀ c db gateway message channel,
       dmTokens db channel = toks → toks ≠ [] →
       gateway (dmMulticast db message channel) = GatewayResolved batch →
       sendDmPushNotification (Some c) db gateway message channel
       = (SendEachForMulticast (dmMulticast db message channel)
            :: removal failed, Returned tt)).
Proof.
  intros Hne failed.
  assert (Hfailed : failed = errorTokens toks (responses batch))
    by (apply failedTokensOf_errorTokens; exact Hne).
  split; [exact Hfailed|]. rewrite Hfailed.
  split; [intros t; apply errorTokens_In|].
  split; [intros Hnd i t r; apply errorTokens_spared; exact Hnd|].
  split; [intros Hok; rewrite errorTokens_no_error by exact Hok; reflexivity|].
  split; [destruct (errorTokens _ _); [congruence | reflexivity]|].
  rewrite <- Hfailed. unfold failed. split.
  - intros c db gateway sid message channel server Htoks Hnil Hgw.
    rewrite server_push_run. cbv zeta. rewrite Hgw, Htoks.
    destruct toks; [congruence | reflexivity].
  - intros c db gateway message channel Htoks Hnil Hgw.
    rewrite dm_push_run. cbv zeta. rewrite Hgw, Htoks.
    destruct toks; [congruence | reflexivity].
Qed.

Example failed_tokens_t2 :
  failedTokensOf ["t1"; "t2"; "t3"]
    {| responses := [ok_response; error_response; ok_response] |} = ["t2"].
Proof. reflexivity. Qed.

(** C5 (amended): when the gateway call itself fails, the only effect
    of either function is the gateway call: no token is deleted and
    nothing is logged; the promise of the function is rejected with the
    gateway's error. *)
Theorem gateway_failure_rejects (c : string)
    (db : list FirebaseMessagingToken) (gateway : Gateway) (e : FirebaseError)
    (message : Message) (channel : ChannelCache) :
  (∀ sid server,
     serverTokens db sid message ≠ [] →
     gateway (serverMulticast db sid message channel server)
     = GatewayRejected e →
     sendServerPushMessageNotification (Some c) db gateway sid message
       channel server
     = ([SendEachForMulticast (serverMulticast db sid message channel server)],
        Thrown e))
  ∧ (dmTokens db channel ≠ [] →
     gateway (dmMulticast db message channel) = GatewayRejected e →
     sendDmPushNotification (Some c) db gateway message channel
     = ([SendEachForMulticast (dmMulticast db message channel)], Thrown e)).
Proof.
  split.
  - intros sid server Hnil Hgw. rewrite server_push_run. cbv zeta. rewrite Hgw.
    destruct (serverTokens db sid message); [congruence | reflexivity].
  - intros Hnil Hgw. rewrite dm_push_run. cbv zeta. rewrite Hgw.
    destruct (dmTokens db channel); [congruence | reflexivity].
Qed.

(** *** The body of the push *)

Lemma text_truthy_Some (v : option JS.Text) :
  JS.text_truthy v = true ↔ ∃ t, v = Some t ∧ t ≠ [].
Proof.
  destruct v as [[|u t]|]; cbn; split; try discriminate.
  - intros (t & [= <-] & H). contradiction.
  - intros _. eexists. split; [reflexivity | discriminate].
  - intros _. reflexivity.
  - intros (t & [=] & _).
Qed.

Lemma substring0_length (n : nat) (s : JS.Text) :
  length (JS.substring0 n s) = Nat.min n (length s).
Proof. apply length_take. Qed.

Lemma substring0_prefix (n : nat) (s : JS.Text) :
  ∃ rest, s = JS.substring0 n s ++ rest.
Proof. exists (drop n s). symmetry. apply take_drop. Qed.

Lemma substring0_lookup (n i : nat) (s : JS.Text) :
  (i < n)%nat → JS.substring0 n s !! i = s !! i.
Proof. intros Hi. apply lookup_take_lt, Hi. Qed.

Lemma truncated_content_long (message : Message) (c : JS.Text) :
  content message = Some c → (100 < length c)%nat →
  truncated_content message = Some (JS.substring0 100 c)
  ∧ JS.text_truthy (Some (JS.substring0 100 c)) = true.
Proof.
  intros Hc Hlen. unfold truncated_content. rewrite Hc.
  split; [reflexivity|]. apply text_truthy_Some. eexists. split; [reflexivity|].
  intros Hempty. pose proof (substring0_length 100 c) as Hl.
  rewrite Hempty in Hl. cbn [length] in Hl. lia.
Qed.

Lemma serverData_content (sid : string) (message : Message)
    (channel : ChannelCache) (server : ServerCache) (c : JS.Text) :
  content message = Some c → (100 < length c)%nat →
  get "content" (serverData sid message channel server)
  = Some (JS.substring0 100 c).
Proof.
  intros Hc Hlen. destruct (truncated_content_long message c Hc Hlen) as [Ht Hy].
  unfold serverData, spread_if. rewrite Ht, Hy. reflexivity.
Qed.

Lemma dmData_content (message : Message) (c : JS.Text) :
  content message = Some c → (100 < length c)%nat →
  get "content" (dmData message) = Some (JS.substring0 100 c).
Proof.
  intros Hc Hlen. destruct (truncated_content_long message c Hc Hlen) as [Ht Hy].
  unfold dmData, spread_if. rewrite Ht, Hy. reflexivity.
Qed.

Lemma removal_no_send (failed : list string) (m : MulticastMessage) :
  ¬ In (SendEachForMulticast m) (removal failed).
Proof. destruct failed; simpl; [tauto|]. intros [[=]|[]]. Qed.

Lemma server_push_sends credentials db gateway sid message channel server m :
  In (SendEachForMulticast m)
     (trace (sendServerPushMessageNotification credentials db gateway sid
               message channel server)) →
  m = serverMulticast db sid message channel server.
Proof.
  rewrite server_push_run. cbv zeta.
  destruct credentials; [|intros []].
  destruct (serverTokens db sid message); [intros []|].
  destruct (gateway _); simpl.
  - intros [[= <-]|[]]. reflexivity.
  - intros [[= <-]|Hin]; [reflexivity|].
    exfalso. exact (removal_no_send _ _ Hin).
Qed.

Lemma dm_push_sends credentials db gateway message channel m :
  In (SendEachForMulticast m)
     (trace (sendDmPushNotification credentials db gateway message channel)) →
  m = dmMulticast db message channel.
Proof.
  rewrite dm_push_run. cbv zeta.
  destruct credentials; [|intros []].
  destruct (dmTokens db channel); [intros []|].
  destruct (gateway _); simpl.
  - intros [[= <-]|[]]. reflexivity.
  - intros [[= <-]|Hin]; [reflexivity|].
    exfalso. exact (removal_no_send _ _ Hin).
Qed.

(** C9: for a message whose content is longer than 100 characters
    (UTF-16 code units, as [length] and [substring] count them), either
    function, when it has credentials and a token to send to, calls the
    gateway with data whose [content] entry is exactly the first 100
    characters of the content. *)
Theorem push_body_truncated (message : Message) (c : JS.Text) :
  content message = Some c →
  (100 < length c)%nat →
  let body := JS.substring0 100 c in
  length body = 100%nat
  ∧ (∃ rest, c = body ++ rest)
  ∧ (∀ i, (i < 100)%nat → body !! i = c !! i)
  ∧ (∀ credentials db gateway sid channel server,
       is_Some credentials → serverTokens db sid message ≠ [] →
       ∃ m rest,
         trace (sendServerPushMessageNotification credentials db gateway
                  sid message channel server)
         = SendEachForMulticast m :: rest
         ∧ tokens m = serverTokens db sid message
         ∧ get "content" (data m) = Some body)
  ∧ (∀ credentials db gateway channel,
       is_Some credentials → dmTokens db channel ≠ [] →
       ∃ m rest,
         trace (sendDmPushNotification credentials db gateway message channel)
         = SendEachForMulticast m :: rest
         ∧ tokens m = dmTokens db channel
         ∧ get "content" (data m) = Some body)
  ∧ (∀ credentials db gateway sid channel server m,
       In (SendEachForMulticast m)
          (trace (sendServerPushMessageNotification credentials db gateway
                    sid message channel server)) →
       get "content" (data m) = Some body)
  ∧ (∀ credentials db gateway channel m,
       In (SendEachForMulticast m)
          (trace (sendDmPushNotification credentials db gateway message
                    channel)) →
       get "content" (data m) = Some body).
Proof.
  intros Hc Hlen body.
  split; [unfold body; rewrite substring0_length; lia|].
  split; [apply substring0_prefix|].
  split; [intros i Hi; apply substring0_lookup, Hi|].
  split; [|split; [|split]].
  - intros credentials db gateway sid channel server [cr ->] Htoks.
    rewrite server_push_run. cbv zeta.
    destruct (serverTokens db sid message) as [|t toks] eqn:E; [congruence|].
    exists (serverMulticast db sid message channel server).
    destruct (gateway _); eexists; (split; [reflexivity|]);
      (split; [exact E|]); apply serverData_content; assumption.
  - intros credentials db gateway channel [cr ->] Htoks.
    rewrite dm_push_run. cbv zeta.
    destruct (dmTokens db channel) as [|t toks] eqn:E; [congruence|].
    exists (dmMulticast db message channel).
    destruct (gateway _); eexists; (split; [reflexivity|]);
      (split; [exact E|]); apply dmData_content; assumption.
  - intros credentials db gateway sid channel server m Hin.
    rewrite (server_push_sends _ _ _ _ _ _ _ _ Hin).
    apply serverData_content; assumption.
  - intros credentials db gateway channel m Hin.
    rewrite (dm_push_sends _ _ _ _ _ _ Hin).
    apply dmData_content; assumption.
Qed.

End DispatchFacts.

Lemma failed_tokens_removed_witness :
  Push.sendDmPushNotification (Some "{}") Push.three_devices
    Push.gateway_second_fails Push.example_message Push.example_channel
  = ([Push.SendEachForMulticast
        (Push.dmMulticast Push.three_devices Push.example_message
           Push.example_channel);
      Push.RemoveFCMTokens ["t2"]],
     Eff.Returned tt).
Proof.
  apply (failed_tokens_removed 0 1 ["t1"; "t2"; "t3"]
           {| Push.responses := [Push.ok_response; Push.error_response;
                                 Push.ok_response] |}).
  - repeat constructor; discriminate.
  - reflexivity.
  - discriminate.
  - reflexivity.
Defined.

(** C5, as the spec states it, fails: with a gateway whose call fails,
    the promise of [sendServerPushMessageNotification] is rejected with
    the gateway's error, and the gateway call is the only effect, so
    nothing is logged. *)
Lemma gateway_failure_counterexample :
  Push.sendServerPushMessageNotification 0 1 (Some "{}")
    (Push.example_db 0 1) Push.gateway_down "srv" Push.example_message
    Push.example_channel Push.example_server
  = ([Push.SendEachForMulticast
        (Push.serverMulticast 0 1 (Push.example_db 0 1) "srv"
           Push.example_message Push.example_channel Push.example_server)],
     Eff.Thrown {| Push.code := "app/network-error" |})
  ∧ ∀ msg, ¬ In (Push.LogWarn msg)
               (Eff.trace
                  (Push.sendServerPushMessageNotification 0 1 (Some "{}")
                     (Push.example_db 0 1) Push.gateway_down "srv"
                     Push.example_message Push.example_channel
                     Push.example_server)).
Proof.
  split; [reflexivity|]. intros msg [[=]|[]].
Qed.

Lemma gateway_failure_rejects_witness :
  Push.sendDmPushNotification (Some "{}") Push.three_devices
    Push.gateway_down Push.example_message Push.example_channel
  = ([Push.SendEachForMulticast
        (Push.dmMulticast Push.three_devices Push.example_message
           Push.example_channel)],
     Eff.Thrown {| Push.code := "app/network-error" |}).
Proof.
  apply (gateway_failure_rejects 0 1 "{}" Push.three_devices Push.gateway_down
           {| Push.code := "app/network-error" |} Push.example_message
           Push.example_channel).
  - discriminate.
  - reflexivity.
Defined.

Lemma push_body_truncated_witness :
  length Push.long_body = 150%nat
  ∧ ∃ m rest,
      Eff.trace
        (Push.sendServerPushMessageNotification 0 1 (Some "{}")
           (Push.example_db 0 1) Push.gateway_second_fails "srv"
           Push.example_message Push.example_channel Push.example_server)
      = Push.SendEachForMulticast m :: rest
      ∧ Push.tokens m = ["tA"; "tC"; "tD"]
      ∧ Push.get "content" (Push.data m) = Some (repeat 97%N 100).
Proof.
  split; [reflexivity|].
  apply (push_body_truncated 0 1 Push.example_message Push.long_body).
  - reflexivity.
  - vm_compute. lia.
  - eexists. reflexivity.
  - discriminate.
Defined.

(** The hundredth code unit may be any character: a body of 99 [a], then
    U+65E5, then 50 [b] is sent as the 99 [a] followed by U+65E5. *)
Example push_body_kanji :
  Push.get "content"
    (Push.dmData {| Push.content := Some Push.kanji_body; Push.type := 0;
                    Push.channelId := "chan"; Push.createdBy := Push.author;
                    Push.mentions := [] |})
  = Some (repeat 97%N 99 ++ [26085%N]).
Proof. reflexivity. Qed.

(** * Further properties *)

(** ** middleware/rateLimit: the key *)

Section RateLimitKeyFacts.
Import RateLimit.

Lemma list_ascii_of_string_app (s1 s2 : string) :
  list_ascii_of_string (s1 +:+ s2)
  = list_ascii_of_string s1 ++ list_ascii_of_string s2.
Proof. induction s1 as [|c s1 IH]; simpl; [reflexivity|]. rewrite IH. reflexivity. Qed.

Lemma string_app_inv_tail (s1 s2 t : string) : s1 +:+ t = s2 +:+ t → s1 = s2.
Proof.
  intros H. apply (f_equal list_ascii_of_string) in H.
  rewrite !list_ascii_of_string_app in H. apply app_inv_tail in H.
  rewrite <- (string_of_list_ascii_of_string s1),
          <- (string_of_list_ascii_of_string s2), H.
  reflexivity.
Qed.

Lemma replace_colons_chars (s : string) :
  list_ascii_of_string (JS.replace_colons s)
  = map (λ c, if Ascii.eqb c ":" then "="%char else c) (list_ascii_of_string s).
Proof. induction s as [|c s IH]; simpl; [reflexivity|]. rewrite IH. reflexivity. Qed.

(** The normalized IP holds no colon, is as long as the IP, and differs
    from it only where the IP has a colon; an IP without colons is left
    as it is. *)
Theorem replace_colons_normalizes (ip : string) :
  ¬ In ":"%char (list_ascii_of_string (JS.replace_colons ip))
  ∧ String.length (JS.replace_colons ip) = String.length ip
  ∧ (∀ i c, String.get i ip = Some c → c ≠ ":"%char →
       String.get i (JS.replace_colons ip) = Some c)
  ∧ (∀ i, String.get i ip = Some ":"%char →
       String.get i (JS.replace_colons ip) = Some "="%char)
  ∧ (¬ In ":"%char (list_ascii_of_string ip) → JS.replace_colons ip = ip)
  ∧ JS.replace_colons (JS.replace_colons ip) = JS.replace_colons ip.
Proof.
  assert (Hfix : ∀ s, ¬ In ":"%char (list_ascii_of_string s) →
                      JS.replace_colons s = s).
  { induction s as [|c s IH]; simpl; [reflexivity|]. intros Hno.
    destruct (Ascii.eqb_spec c ":") as [->|Hc]; [exfalso; apply Hno; auto|].
    rewrite IH by (intros Hin; apply Hno; auto). reflexivity. }
  assert (Hno : ∀ s, ¬ In ":"%char (list_ascii_of_string (JS.replace_colons s))).
  { intros s. rewrite replace_colons_chars, in_map_iff.
    intros (c & Hc & _). destruct (Ascii.eqb_spec c ":"); [discriminate|].
    congruence. }
  split; [apply Hno|]. split; [|split; [|split; [|split]]].
  - induction ip as [|c s IH]; simpl; [reflexivity|]. rewrite IH. reflexivity.
  - induction ip as [|c s IH]; intros i ch; [discriminate|].
    destruct i as [|i]; simpl.
    + intros [= ->] Hne. destruct (Ascii.eqb_spec ch ":"); [contradiction|].
      reflexivity.
    + apply IH.
  - induction ip as [|c s IH]; intros i; [discriminate|].
    destruct i as [|i]; simpl.
    + intros [= ->]. reflexivity.
    + apply IH.
  - apply Hfix.
  - apply Hfix, Hno.
Qed.

(** Without [globalLimit], requests of two users with different ids are
    counted under different keys, whatever the action name; so are
    requests counted by IP whose normalized IPs differ. *)
Theorem rateLimit_key_separates (opts : Options) (req1 req2 : Request) :
  JS.flag (globalLimit opts) = false →
  (JS.flag (useIP opts) = false →
   ∀ a1 a2, accountCache req1 = Some a1 → accountCache req2 = Some a2 →
     user_id (user a1) ≠ user_id (user a2) →
     rateLimitKey opts req1 ≠ rateLimitKey opts req2)
  ∧ (JS.flag (useIP opts) = true →
     JS.replace_colons (userIP req1) ≠ JS.replace_colons (userIP req2) →
     rateLimitKey opts req1 ≠ rateLimitKey opts req2).
Proof.
  intros Hg. split.
  - intros Hip a1 a2 H1 H2 Hne. rewrite !rateLimitKey_unfold, !identity_unfold.
    rewrite Hg, Hip, H1, H2. simpl.
    destruct (JS.str_truthy (name opts)).
    + intros [= H]. apply string_app_inv_tail in H. contradiction.
    + intros [= H]. contradiction.
  - intros Hip Hne. rewrite !rateLimitKey_unfold, !identity_unfold.
    rewrite Hg, Hip. simpl.
    destruct (JS.str_truthy (name opts)).
    + intros [= H]. apply string_app_inv_tail in H. contradiction.
    + intros [= H]. contradiction.
Qed.

(** The request is answered with 429 exactly when the counter store
    returns a non-zero ttl and [nextIfRatedLimited] is not set; the body
    then carries [opts.message], or ['Slow down!'] when the message is
    missing or empty, with the ttl, and the request is left untouched. *)
Theorem rateLimit_rejects (Store : Type)
    (check : Store → CheckArgs → Store * Ttl)
    (opts : Options) (st : Store) (req : Request) :
  let args := {| id := rateLimitKey opts req;
                 arg_expireMS := expireMS opts;
                 arg_requestCount := requestCount opts |} in
  let ttl := snd (check st args) in
  let result := rateLimit Store check opts st req in
  ((∃ e t, snd result = Status429 e t)
   ↔ ttl_truthy ttl = true ∧ JS.flag (nextIfRatedLimited opts) = false)
  ∧ (∀ e t, snd result = Status429 e t →
       t = ttl ∧ snd (fst result) = req
       ∧ e = match message opts with
             | Some m => if JS.str_truthy m then m else "Slow down!"
             | None => "Slow down!"
             end).
Proof.
  intros args ttl result. unfold result, ttl, rateLimit. fold args.
  destruct (check st args) as [st' t0]. cbn [snd fst].
  destruct (ttl_truthy t0) eqn:Ht, (JS.flag (nextIfRatedLimited opts)) eqn:Hn;
    cbn [andb].
  - destruct t0; split.
    + split; [intros (e & t & [=]) | intros [_ [=]]].
    + intros e t [=].
    + split; [intros (e & t & [=]) | intros [_ [=]]].
    + intros e t [=].
  - split.
    + split; [auto | intros _; eauto].
    + intros e t [= <- <-]. repeat split.
      destruct (message opts) as [m|]; [|reflexivity]. simpl.
      destruct (JS.str_truthy m); reflexivity.
  - split.
    + split; [intros (e & t & [=]) | intros [[=] _]].
    + intros e t [=].
  - split.
    + split; [intros (e & t & [=]) | intros [[=] _]].
    + intros e t [=].
Qed.

(** When the counter store does not limit, which includes a ttl of 0,
    the middleware calls [next] and leaves the request as it is,
    whatever the options; and no path of the middleware changes
    [req.userIP] or [req.accountCache]. *)
Theorem rateLimit_admits (Store : Type)
    (check : Store → CheckArgs → Store * Ttl)
    (opts : Options) (st : Store) (req : Request) :
  let args := {| id := rateLimitKey opts req;
                 arg_expireMS := expireMS opts;
                 arg_requestCount := requestCount opts |} in
  let result := rateLimit Store check opts st req in
  (ttl_truthy (snd (check st args)) = false →
   snd result = Next ∧ snd (fst result) = req)
  ∧ userIP (snd (fst result)) = userIP req
  ∧ accountCache (snd (fst result)) = accountCache req
  ∧ (rateLimited (snd (fst result)) ≠ rateLimited req →
     JS.flag (nextIfRatedLimited opts) = true
     ∧ ∃ ms, snd (check st args) = TtlNum ms ∧ ms ≠ 0
             ∧ rateLimited (snd (fst result)) = Some ms).
Proof.
  intros args result. unfold result, rateLimit. fold args.
  destruct (check st args) as [st' t0]. cbn [snd fst].
  destruct t0 as [|ms]; cbn [ttl_truthy andb].
  - repeat split; intros; simpl in *; congruence.
  - destruct (Z.eqb_spec ms 0) as [->|Hms]; cbn [negb andb].
    + repeat split; intros; simpl in *; congruence.
    + destruct (JS.flag (nextIfRatedLimited opts)); cbn.
      * split; [intros [=]|]. do 2 (split; [reflexivity|]).
        intros _. split; [reflexivity|]. exists ms. auto.
      * split; [intros [=]|]. repeat split; intros; simpl in *; congruence.
Qed.

End RateLimitKeyFacts.

Lemma rateLimit_key_separates_witness :
  RateLimit.rateLimitKey RateLimit.create_message_options RateLimit.alice_request
  ≠ RateLimit.rateLimitKey RateLimit.create_message_options
      {| RateLimit.userIP := "10.0.0.7";
         RateLimit.accountCache :=
           Some {| RateLimit.user := {| RateLimit.user_id := "bob" |} |};
         RateLimit.rateLimited := None |}.
Proof.
  apply (rateLimit_key_separates RateLimit.create_message_options
           RateLimit.alice_request _ eq_refl) with
    (a1 := {| RateLimit.user := {| RateLimit.user_id := "alice" |} |})
    (a2 := {| RateLimit.user := {| RateLimit.user_id := "bob" |} |});
    [reflexivity | reflexivity | reflexivity | discriminate].
Defined.

(** ** emits/Server: rooms joined and rooms left *)

Section RoomFacts.
Import Eff Emits ServerLeft.

Variable Forwarded : Type.
Variable hasBit : Z → Z → bool.
Variable PRIVATE_CHANNEL_bit : Z.

Local Abbreviation joinsChannel := (Emits.joinsChannel hasBit PRIVATE_CHANNEL_bit).
Local Abbreviation isPrivateChannel := (Emits.isPrivateChannel hasBit PRIVATE_CHANNEL_bit).
Local Abbreviation emitServerJoined := (Emits.emitServerJoined Forwarded hasBit PRIVATE_CHANNEL_bit).

Lemma joinedRooms_joins (uid : string) (chans : list Channel) :
  joinedRooms (Forwarded := Forwarded)
    (map (λ c, SocketsJoin (io_in uid) (channel_id c)) chans)
  = map (pair (io_in uid)) (map channel_id chans).
Proof.
  induction chans as [|c chans IH]; [reflexivity|].
  cbn. unfold joinedRooms in IH. rewrite IH. reflexivity.
Qed.

Lemma joinedRooms_trace (opts : ServerJoinOpts Forwarded) (member : JoinedMember) :
  joinedMember opts = Some member →
  user_id (user member) ≠ "" →
  joinedRooms (trace (emitServerJoined opts))
  = map (pair (io_in (user_id (user member))))
      (server_id (server opts)
       :: map channel_id
            (List.filter (joinsChannel (server opts) (user_id (user member)))
               (channels opts))).
Proof.
  intros Hm Hid. rewrite (emitServerJoined_run _ _ _ opts member Hm Hid).
  unfold trace, joinedRooms. cbn [fst]. rewrite !omap_app.
  change (omap _ (map ?f ?l)) with (joinedRooms (Forwarded := Forwarded) (map f l)).
  rewrite joinedRooms_joins. cbn. rewrite app_nil_r. reflexivity.
Qed.

Lemma emitServerLeft_member (sid uid : string) (chans : list string) :
  uid ≠ "" →
  emitServerLeft {| userId := Some uid; serverId := sid;
                    serverDeleted := None; channelIds := Some chans |}
  = ([SocketsLeave (io_in uid) (sid :: chans);
      EmitLeft (io_in sid) SERVER_MEMBER_LEFT (MemberLeftPayload sid uid);
      EmitLeft (io_in uid) SERVER_LEFT (ServerLeftPayload sid)],
     Returned tt).
Proof.
  intros Hid. unfold emitServerLeft. cbn [serverDeleted JS.flag userId JS.truthy].
  apply str_truthy_true in Hid. rewrite Hid. reflexivity.
Qed.

Lemma filter_all {A} (p : A → bool) (l : list A) :
  (∀ x, In x l → p x = true) → List.filter p l = l.
Proof.
  induction l as [|x l IH]; intros Hall; [reflexivity|]. simpl.
  rewrite (Hall x) by (left; reflexivity).
  rewrite IH by (intros y Hy; apply Hall; right; exact Hy). reflexivity.
Qed.

Lemma NoDup_map_inj_in {A B} (f : A → B) (l : list A) (x y : A) :
  NoDup (map f l) → In x l → In y l → f x = f y → x = y.
Proof.
  induction l as [|a l IH]; intros Hnd Hx Hy Hf; [contradiction|].
  cbn in Hnd. apply NoDup_cons in Hnd as [Ha Hnd].
  destruct Hx as [->|Hx], Hy as [->|Hy].
  - reflexivity.
  - exfalso. apply Ha, list_elem_of_In. rewrite Hf. apply in_map, Hy.
  - exfalso. apply Ha, list_elem_of_In. rewrite <- Hf. apply in_map, Hx.
  - apply IH; assumption.
Qed.

(** The creator of a server who joins it is joined to the server room
    and to the room of every channel, private or not, in channel
    order. *)
Theorem emitServerJoined_creator_joins_all
    (opts : ServerJoinOpts Forwarded) (member : JoinedMember) :
  joinedMember opts = Some member →
  user_id (user member) ≠ "" →
  createdById (server opts) = user_id (user member) →
  joinedRooms (trace (emitServerJoined opts))
  = map (pair (io_in (user_id (user member))))
      (server_id (server opts) :: map channel_id (channels opts)).
Proof.
  intros Hm Hid Hadmin. rewrite (joinedRooms_trace opts member Hm Hid).
  rewrite filter_all; [reflexivity|].
  intros c _. apply joinsChannel_iff. right. exact Hadmin.
Qed.

(** A user who did not create the server is joined to the server room
    and to the rooms of the channels that are not private; only the
    sockets of the joining user are joined, and the room of a private
    channel is not among the rooms joined. *)
Theorem emitServerJoined_skips_private
    (opts : ServerJoinOpts Forwarded) (member : JoinedMember) :
  joinedMember opts = Some member →
  user_id (user member) ≠ "" →
  createdById (server opts) ≠ user_id (user member) →
  let uid := user_id (user member) in
  joinedRooms (trace (emitServerJoined opts))
  = map (pair (io_in uid))
      (server_id (server opts)
       :: map channel_id
            (List.filter (λ c, negb (isPrivateChannel c)) (channels opts)))
  ∧ (∀ op room, In (op, room) (joinedRooms (trace (emitServerJoined opts))) →
       op = io_in uid)
  ∧ (NoDup (server_id (server opts) :: map channel_id (channels opts)) →
     ∀ c, In c (channels opts) → isPrivateChannel c = true →
       ¬ In (io_in uid, channel_id c)
            (joinedRooms (trace (emitServerJoined opts)))).
Proof.
  intros Hm Hid Hne uid.
  assert (Hfilter : List.filter (joinsChannel (server opts) uid) (channels opts)
                    = List.filter (λ c, negb (isPrivateChannel c)) (channels opts)).
  { apply filter_ext. intros c. unfold Emits.joinsChannel, isAdmin.
    apply String.eqb_neq in Hne. fold uid in Hne. rewrite Hne.
    apply orb_false_r. }
  rewrite (joinedRooms_trace opts member Hm Hid). fold uid. rewrite Hfilter.
  split; [reflexivity|]. split.
  - intros op room Hin. apply in_map_iff in Hin as (r & [= <- _] & _).
    reflexivity.
  - intros Hnd c Hc Hpriv Hin.
    apply in_map_iff in Hin as (r & [= Hr] & Hin).
    apply NoDup_cons in Hnd as [Hsrv Hnd].
    destruct Hin as [<-|Hin].
    + apply Hsrv, list_elem_of_In. rewrite Hr. apply in_map, Hc.
    + apply in_map_iff in Hin as (c' & Hid' & Hc').
      apply filter_In in Hc' as [Hc' Hnp].
      assert (c' = c) as ->
        by (apply (NoDup_map_inj_in channel_id (channels opts)); congruence).
      rewrite Hpriv in Hnp. discriminate.
Qed.

(** When the server was deleted, [emitServerLeft] tells the whole server
    room and empties it, whatever [userId] and [channelIds] are; it
    never emits [SERVER_MEMBER_LEFT] and leaves no channel room. *)
Theorem emitServerLeft_server_deleted (opts : ServerLeftOpts) :
  serverDeleted opts = Some true →
  emitServerLeft opts
  = ([EmitLeft (io_in (serverId opts)) SERVER_LEFT
        (ServerLeftPayload (serverId opts));
      SocketsLeave (io_in (serverId opts)) [serverId opts]],
     Returned tt)
  ∧ ∀ u cs, emitServerLeft {| userId := u; serverId := serverId opts;
                              serverDeleted := Some true; channelIds := cs |}
            = emitServerLeft opts.
Proof.
  intros Hdel. unfold emitServerLeft. rewrite Hdel. cbn [serverDeleted JS.flag].
  split; reflexivity.
Qed.

(** When the server was not deleted and the user id is missing or empty,
    or the channel ids are missing, [emitServerLeft] does nothing; an
    empty list of channel ids is not missing: the user then leaves the
    server room and both events are emitted. *)
Theorem emitServerLeft_missing_arguments (opts : ServerLeftOpts) :
  JS.flag (serverDeleted opts) = false →
  (JS.truthy (userId opts) = false ∨ channelIds opts = None →
   emitServerLeft opts = ([], Returned tt))
  ∧ (∀ uid, userId opts = Some uid → uid ≠ "" → channelIds opts = Some [] →
       emitServerLeft opts
       = ([SocketsLeave (io_in uid) [serverId opts];
           EmitLeft (io_in (serverId opts)) SERVER_MEMBER_LEFT
             (MemberLeftPayload (serverId opts) uid);
           EmitLeft (io_in uid) SERVER_LEFT (ServerLeftPayload (serverId opts))],
          Returned tt)).
Proof.
  intros Hdel. split.
  - intros Hmiss. unfold emitServerLeft. rewrite Hdel.
    destruct Hmiss as [-> | ->]; [reflexivity|].
    rewrite orb_true_r. reflexivity.
  - intros uid Hu Hid Hcs. unfold emitServerLeft. rewrite Hdel, Hu, Hcs.
    cbn [JS.truthy]. apply str_truthy_true in Hid. rewrite Hid. reflexivity.
Qed.

(** Leaving undoes joining: every room that [emitServerJoined] joins the
    user's sockets to is among the rooms that [emitServerLeft], called
    for that user with the ids of the same channels, makes them leave;
    for the creator of the server the two lists are equal. *)
Theorem emitServerLeft_leaves_joined
    (opts : ServerJoinOpts Forwarded) (member : JoinedMember) :
  joinedMember opts = Some member →
  user_id (user member) ≠ "" →
  let uid := user_id (user member) in
  let joined := joinedRooms (trace (emitServerJoined opts)) in
  let left := leftRooms (trace (emitServerLeft (leaveOf opts uid))) in
  left = map (pair (io_in uid))
           (server_id (server opts) :: map channel_id (channels opts))
  ∧ (∀ p, In p joined → In p left)
  ∧ (createdById (server opts) = uid → joined = left).
Proof.
  intros Hm Hid uid joined left.
  assert (Hleft : left = map (pair (io_in uid))
                    (server_id (server opts) :: map channel_id (channels opts))).
  { unfold left, leaveOf. rewrite (emitServerLeft_member _ _ _ Hid).
    cbn. rewrite app_nil_r. reflexivity. }
  split; [exact Hleft|]. unfold joined.
  rewrite (joinedRooms_trace opts member Hm Hid), Hleft. fold uid. split.
  - intros p Hp. apply in_map_iff in Hp as (r & <- & Hr). apply in_map.
    destruct Hr as [<-|Hr]; [left; reflexivity|]. right.
    apply in_map_iff in Hr as (c & <- & Hc). apply in_map.
    apply filter_In in Hc as [Hc _]. exact Hc.
  - intros Hadmin. rewrite filter_all; [reflexivity|].
    intros c _. apply joinsChannel_iff. right. exact Hadmin.
Qed.

End RoomFacts.

Lemma emitServerJoined_creator_joins_all_witness :
  ServerLeft.joinedRooms
    (Eff.trace (Emits.emitServerJoined unit Emits.mask_hasBit 1
                  (Emits.sample_join (Some "owner"))))
  = [(Emits.io_in "owner", "srv"); (Emits.io_in "owner", "general");
     (Emits.io_in "owner", "staff"); (Emits.io_in "owner", "rules")].
Proof.
  apply (emitServerJoined_creator_joins_all unit Emits.mask_hasBit 1
           (Emits.sample_join (Some "owner"))
           {| Emits.user := {| Emits.user_id := "owner" |} |});
    [reflexivity | discriminate | reflexivity].
Defined.

Lemma emitServerJoined_skips_private_witness :
  ¬ In (Emits.io_in "newcomer", "staff")
       (ServerLeft.joinedRooms
          (Eff.trace (Emits.emitServerJoined unit Emits.mask_hasBit 1
                        (Emits.sample_join (Some "newcomer"))))).
Proof.
  apply (emitServerJoined_skips_private unit Emits.mask_hasBit 1
           (Emits.sample_join (Some "newcomer"))
           {| Emits.user := {| Emits.user_id := "newcomer" |} |}
           eq_refl ltac:(discriminate) ltac:(discriminate))
    with (c := {| Emits.channel_id := "staff"; Emits.permissions := Some 1 |}).
  - compute_done.
  - right. left. reflexivity.
  - reflexivity.
Defined.

Lemma emitServerLeft_server_deleted_witness :
  ServerLeft.emitServerLeft
    {| ServerLeft.userId := Some "newcomer"; ServerLeft.serverId := "srv";
       ServerLeft.serverDeleted := Some true;
       ServerLeft.channelIds := Some ["general"] |}
  = ([ServerLeft.EmitLeft (Emits.io_in "srv") ServerLeft.SERVER_LEFT
        (ServerLeft.ServerLeftPayload "srv");
      ServerLeft.SocketsLeave (Emits.io_in "srv") ["srv"]],
     Eff.Returned tt).
Proof.
  apply (emitServerLeft_server_deleted
           {| ServerLeft.userId := Some "newcomer"; ServerLeft.serverId := "srv";
              ServerLeft.serverDeleted := Some true;
              ServerLeft.channelIds := Some ["general"] |}).
  reflexivity.
Defined.

Lemma emitServerLeft_missing_arguments_witness :
  ServerLeft.emitServerLeft
    {| ServerLeft.userId := Some "newcomer"; ServerLeft.serverId := "srv";
       ServerLeft.serverDeleted := None; ServerLeft.channelIds := None |}
  = ([], Eff.Returned tt).
Proof.
  apply (emitServerLeft_missing_arguments
           {| ServerLeft.userId := Some "newcomer"; ServerLeft.serverId := "srv";
              ServerLeft.serverDeleted := None;
              ServerLeft.channelIds := None |}).
  - reflexivity.
  - right. reflexivity.
Defined.

Lemma emitServerLeft_leaves_joined_witness :
  ServerLeft.leftRooms
    (Eff.trace (ServerLeft.emitServerLeft
                  (ServerLeft.leaveOf (Emits.sample_join (Some "newcomer"))
                     "newcomer")))
  = [(Emits.io_in "newcomer", "srv"); (Emits.io_in "newcomer", "general");
     (Emits.io_in "newcomer", "staff"); (Emits.io_in "newcomer", "rules")].
Proof.
  apply (emitServerLeft_leaves_joined unit Emits.mask_hasBit 1
           (Emits.sample_join (Some "newcomer"))
           {| Emits.user := {| Emits.user_id := "newcomer" |} |});
    [reflexivity | discriminate].
Defined.

(** ** fcm/pushNotification.ts: what a push does and does not do *)

Section PushFacts.
Import Eff Push.

Variable ALL : Z.
Variable MENTIONS_ONLY : Z.

Local Abbreviation serverTokenWhere := (Push.serverTokenWhere ALL MENTIONS_ONLY).
Local Abbreviation serverTokens := (Push.serverTokens ALL MENTIONS_ONLY).
Local Abbreviation sendServerPushMessageNotification :=
  (Push.sendServerPushMessageNotification ALL MENTIONS_ONLY).
Local Abbreviation serverMulticast := (Push.serverMulticast ALL MENTIONS_ONLY).



(** The tokens handed to [removeFCMTokens] are, in order, some of the
    tokens that were sent to, whatever the gateway answers: never the
    empty string, never more than there are responses, and never a
    token beyond the last response. *)
Theorem failed_tokens_were_sent (toks : list string) (batch : BatchResponse) :
  let failed := failedTokensOf toks batch in
  sublist failed (take (length (responses batch)) toks)
  ∧ sublist failed toks
  ∧ (∀ t, In t failed → t ≠ "" ∧ In t toks)
  ∧ (length failed ≤ length (responses batch))%nat
  ∧ (length failed ≤ length toks)%nat.
Proof.
  intros failed. destruct batch as [rs]. cbn [responses] in *.
  assert (Hsub : sublist failed (take (length rs) toks)).
  { unfold failed. clear failed. rewrite failedTokensOf_zip. revert rs.
    induction toks as [|t toks IH]; intros rs; [destruct rs; constructor|].
    destruct rs as [|r rs]; [constructor|].
    cbn [zip_with List.filter length take fst snd].
    destruct (bool_decide _ && JS.str_truthy t); cbn [map fst].
    - apply sublist_skip, IH.
    - apply sublist_cons, IH. }
  assert (Hnonempty : ∀ t, In t failed → t ≠ "").
  { unfold failed. rewrite failedTokensOf_zip.
    intros t Hin. apply in_map_iff in Hin as ([t' r] & <- & Hin).
    apply filter_In in Hin as [_ Hp]. apply andb_true_iff in Hp as [_ Hp].
    apply str_truthy_true. exact Hp. }
  assert (Hsub' : sublist failed toks)
    by (etransitivity; [exact Hsub | apply sublist_take]).
  split; [exact Hsub|]. split; [exact Hsub'|]. split; [|split].
  - intros t Hin. split; [apply Hnonempty, Hin|].
    apply list_elem_of_In. eapply elem_of_sublist; [|exact Hsub'].
    apply list_elem_of_In, Hin.
  - apply sublist_length in Hsub. rewrite length_take in Hsub. lia.
  - apply sublist_length in Hsub'. exact Hsub'.
Qed.

Lemma spread_content (v : option JS.Text) (rest : Data) :
  (∀ k x, In (k, x) rest → k ≠ "content") →
  get "content" (spread_if "content" v ++ rest)
  = if JS.text_truthy v then v else None.
Proof.
  intros Hrest. unfold spread_if.
  destruct (JS.text_truthy v) eqn:Hv.
  - apply text_truthy_Some in Hv as (t & -> & _). reflexivity.
  - cbn [app]. clear Hv.
    induction rest as [|[k y] rest IH]; [reflexivity|]. cbn [get].
    destruct (String.eqb_spec k "content") as [->|_].
    + exfalso. apply (Hrest "content" y); [left|]; reflexivity.
    + apply IH. intros k' x' Hin. apply (Hrest k' x'). right. exact Hin.
Qed.

Lemma spread_if_key (key k : string) (x : JS.Text) (v : option JS.Text) :
  In (k, x) (spread_if key v) → k = key ∧ v = Some x ∧ x ≠ [].
Proof.
  unfold spread_if. destruct (JS.text_truthy v) eqn:Hv; [|intros []].
  apply text_truthy_Some in Hv as (y & -> & Hy). cbn. intros [[= <- <-]|[]]. auto.
Qed.

Lemma text_nil (s : string) : JS.text s = [] ↔ s = "".
Proof.
  destruct s; unfold JS.text; cbn [list_ascii_of_string map];
    split; intros H; try reflexivity; discriminate H.
Qed.

Lemma serverData_rest_no_content (sid : string) (message : Message)
    (channel : ChannelCache) (server : ServerCache) (k : string) (x : JS.Text) :
  In (k, x)
     ([("type", JS.text (toString (type message)));
       ("channelName", JS.text (channel_name channel));
       ("serverName", JS.text (server_name server));
       ("channelId", JS.text (channelId message));
       ("serverId", JS.text sid);
       ("cUserId", JS.text (createdBy_id (createdBy message)));
       ("cName", JS.text (username (createdBy message)))]
      ++ spread_if "sAvatar" (option_map JS.text (server_avatar server))
      ++ spread_if "sHexColor" (option_map JS.text (server_hexColor server))) →
  k ≠ "content".
Proof.
  rewrite !in_app_iff. intros [Hin|[Hin|Hin]].
  - cbn in Hin. intuition congruence.
  - apply spread_if_key in Hin as [-> _]. discriminate.
  - apply spread_if_key in Hin as [-> _]. discriminate.
Qed.

Lemma dmData_rest_no_content (message : Message) (k : string) (x : JS.Text) :
  In (k, x)
     ([("type", JS.text (toString (type message)));
       ("channelId", JS.text (channelId message));
       ("cUserId", JS.text (createdBy_id (createdBy message)));
       ("cName", JS.text (username (createdBy message)))]
      ++ spread_if "uAvatar" (option_map JS.text (avatar (createdBy message)))
      ++ spread_if "uHexColor" (option_map JS.text (hexColor (createdBy message)))) →
  k ≠ "content".
Proof.
  rewrite !in_app_iff. intros [Hin|[Hin|Hin]].
  - cbn in Hin. intuition congruence.
  - apply spread_if_key in Hin as [-> _]. discriminate.
  - apply spread_if_key in Hin as [-> _]. discriminate.
Qed.

Lemma substring0_short (n : nat) (s : JS.Text) :
  (length s ≤ n)%nat → JS.substring0 n s = s.
Proof. intros Hlen. apply take_ge, Hlen. Qed.

Lemma data_content (message : Message) (sid : string)
    (channel : ChannelCache) (server : ServerCache) :
  get "content" (serverData sid message channel server)
  = (if JS.text_truthy (truncated_content message)
     then truncated_content message else None)
  ∧ get "content" (dmData message)
    = (if JS.text_truthy (truncated_content message)
       then truncated_content message else None).
Proof.
  split.
  - unfold serverData. apply spread_content.
    intros k x. apply serverData_rest_no_content.
  - unfold dmData. apply spread_content.
    intros k x. apply dmData_rest_no_content.
Qed.

(** The [content] entry of the data of either push never holds more
    than 100 characters (UTF-16 code units) and is never empty: a
    content of at most 100 characters is sent as it is, a longer one is
    cut to its first 100, and a missing or empty content leaves the
    entry out. *)
Theorem push_body_bounded (message : Message) (sid : string)
    (channel : ChannelCache) (server : ServerCache) :
  get "content" (dmData message)
  = get "content" (serverData sid message channel server)
  ∧ (∀ v, get "content" (serverData sid message channel server) = Some v →
       v ≠ [] ∧ (length v ≤ 100)%nat
       ∧ ∃ c, content message = Some c ∧ v = take 100 c)
  ∧ (∀ c, content message = Some c → c ≠ [] → (length c ≤ 100)%nat →
       get "content" (serverData sid message channel server) = Some c)
  ∧ (content message = None ∨ content message = Some [] ↔
     get "content" (serverData sid message channel server) = None).
Proof.
  destruct (data_content message sid channel server) as [Hs Hd].
  rewrite Hs, Hd. split; [reflexivity|].
  unfold truncated_content. destruct (content message) as [c|].
  - split; [|split].
    + intros v Hv.
      destruct (JS.text_truthy (Some (JS.substring0 100 c))) eqn:Ht;
        [|discriminate].
      assert (v = JS.substring0 100 c) as -> by congruence.
      apply text_truthy_Some in Ht as (t & Ht & Hne).
      assert (t = JS.substring0 100 c) as -> by congruence.
      split; [exact Hne|]. split; [rewrite substring0_length; lia|].
      exists c. split; reflexivity.
    + intros c' [= <-] Hne Hlen. rewrite substring0_short by exact Hlen.
      destruct c; [contradiction | reflexivity].
    + split.
      * intros [[=]|[= ->]]. reflexivity.
      * destruct c as [|u c]; [intros _; right; reflexivity|]. discriminate.
  - split; [intros v [=]|]. split; [intros c [=]|].
    split; [reflexivity | intros _; left; reflexivity].
Qed.

(** The data of either push has no key twice and always carries the
    message type, the channel id and the author's id and name (and, for
    a server message, the server id and the channel and server names);
    an avatar or colour entry is present only with a non-empty value. *)
Theorem push_data_keys (message : Message) (sid : string)
    (channel : ChannelCache) (server : ServerCache) :
  NoDup (map fst (serverData sid message channel server))
  ∧ NoDup (map fst (dmData message))
  ∧ (∀ d, d = serverData sid message channel server ∨ d = dmData message →
       get "type" d = Some (JS.text (toString (type message)))
       ∧ get "channelId" d = Some (JS.text (channelId message))
       ∧ get "cUserId" d = Some (JS.text (createdBy_id (createdBy message)))
       ∧ get "cName" d = Some (JS.text (username (createdBy message))))
  ∧ get "serverId" (serverData sid message channel server) = Some (JS.text sid)
  ∧ get "channelName" (serverData sid message channel server)
    = Some (JS.text (channel_name channel))
  ∧ get "serverName" (serverData sid message channel server)
    = Some (JS.text (server_name server))
  ∧ (∀ k v, In (k, v) (serverData sid message channel server) →
       In k ["content"; "sAvatar"; "sHexColor"] → v ≠ [])
  ∧ (∀ k v, In (k, v) (dmData message) →
       In k ["content"; "uAvatar"; "uHexColor"] → v ≠ []).
Proof.
  unfold serverData, dmData, spread_if.
  destruct (JS.text_truthy (truncated_content message)) eqn:Hc,
           (JS.text_truthy (option_map JS.text (server_avatar server))) eqn:Hsa,
           (JS.text_truthy (option_map JS.text (server_hexColor server))) eqn:Hsh,
           (JS.text_truthy (option_map JS.text (avatar (createdBy message)))) eqn:Hua,
           (JS.text_truthy (option_map JS.text (hexColor (createdBy message)))) eqn:Huh;
    try (apply text_truthy_Some in Hc as (xc & -> & Hxc));
    try (apply text_truthy_Some in Hsa as (xsa & -> & Hxsa));
    try (apply text_truthy_Some in Hsh as (xsh & -> & Hxsh));
    try (apply text_truthy_Some in Hua as (xua & -> & Hxua));
    try (apply text_truthy_Some in Huh as (xuh & -> & Hxuh));
    cbn [app map fst default];
    (split; [compute_done|]); (split; [compute_done|]);
    (split; [intros d [-> | ->]; repeat split; reflexivity|]);
    (do 3 (split; [reflexivity|]));
    (split; intros k v Hin Hk; cbn in Hin, Hk; intuition congruence).
Qed.

(** A row whose owner is not a member of the server, or whose owner's
    records for the server all carry a mode other than [ALL] and
    [MENTIONS_ONLY], is not selected, even when the owner is mentioned. *)
Theorem server_push_never_targets (sid : string) (mentioned : list string)
    (row : FirebaseMessagingToken) :
  (¬ isMember (owner row) sid
   ∨ ((∃ s, In s (joinedServerSettings (owner row)) ∧ serverId s = sid)
      ∧ ∀ s, In s (joinedServerSettings (owner row)) → serverId s = sid →
          notificationPingMode s ≠ ALL
          ∧ notificationPingMode s ≠ MENTIONS_ONLY)) →
  serverTokenWhere sid mentioned row = false
  ∧ ∀ db message, map mention_id (mentions message) = mentioned →
      (∀ row', In row' db → owner row' = owner row) →
      serverTokens db sid message = [].
Proof.
  intros Hnot.
  assert (Hwhere : ∀ row', owner row' = owner row →
                           serverTokenWhere sid mentioned row' = false).
  { intros row' Hsame. unfold Push.serverTokenWhere. fold (owner row').
    rewrite Hsame. apply not_true_iff_false.
    rewrite andb_true_iff, !orb_true_iff, member_clause, none_clause,
      all_clause, some_exists.
    intros [Hmem Hel]. destruct Hnot as [Hnm|[(s0 & Hs0 & Hsid0) Hmodes]];
      [contradiction|].
    destruct Hel as [[Hnone|(s & Hs & Hp)]|(s & Hs & Hsid & Hmode)].
    - exact (Hnone s0 Hs0 Hsid0).
    - apply andb_true_iff in Hp as [Hp Hm]. apply andb_true_iff in Hp as [Hp _].
      apply String.eqb_eq in Hp. apply Z.eqb_eq in Hm.
      destruct (Hmodes s Hs Hp) as [_ Hne]. contradiction.
    - destruct (Hmodes s Hs Hsid) as [Hne _]. contradiction. }
  split; [apply Hwhere; reflexivity|].
  intros db message <- Hdb. unfold Push.serverTokens.
  induction db as [|row' db IH]; [reflexivity|]. cbn [List.filter].
  rewrite Hwhere by (apply Hdb; left; reflexivity).
  apply IH. intros r Hr. apply Hdb. right. exact Hr.
Qed.

(** A direct-message push goes to every token of the inbox recipient
    and to no token of anybody else, whatever the servers and settings
    records of the owners are. *)
Theorem dm_push_targets (db : list FirebaseMessagingToken)
    (channel : ChannelCache) (recipient : Inbox) :
  inbox channel = Some recipient →
  dmTokens db channel
  = map token
      (List.filter (λ row, String.eqb (user_id (owner row)) (recipientId recipient))
         db)
  ∧ (∀ row, In row db → user_id (owner row) = recipientId recipient →
       In (token row) (dmTokens db channel))
  ∧ (∀ t, In t (dmTokens db channel) →
       ∃ row, In row db ∧ token row = t
              ∧ user_id (owner row) = recipientId recipient).
Proof.
  intros Hinbox.
  assert (Heq : dmTokens db channel
                = map token
                    (List.filter (λ row, String.eqb (user_id (owner row))
                                           (recipientId recipient)) db))
    by (unfold dmTokens; rewrite Hinbox; reflexivity).
  rewrite Heq. split; [reflexivity|]. split.
  - intros row Hin Hrec. apply in_map, filter_In. split; [exact Hin|].
    apply String.eqb_eq, Hrec.
  - intros t Hin. apply in_map_iff in Hin as (row & <- & Hin).
    apply filter_In in Hin as [Hin Hrec]. apply String.eqb_eq in Hrec. eauto.
Qed.

End PushFacts.

(** ** routes/channels/channelMessageCreate.ts *)

Section MessageCreateFacts.
Import Eff MessageCreate.

Lemma route_gate (env : Env) (req : Request) :
  (gate env req = false →
   ∃ j, route env req = ([], Returned {| status := 400; json := j |}))
  ∧ (gate env req = true → route env req = uploadAndCreate env req).
Proof.
  unfold route, gate, bad, isEmailConfirmed, isServerPublic.
  destruct (customExpressValidatorResult env req) as [e|];
    [split; [eauto | intros [=]]|].
  rewrite bool_decide_eq_true_2 by reflexivity.
  generalize (uploadAndCreate env req). intros k.
  destruct (googleDriveAttachment (body req)) as [gd|];
    [destruct (JS.truthy (gd_id gd)), (JS.truthy (gd_mime gd))|];
    destruct (requestFile req) as [f|];
    destruct (emailConfirmed (accountCache req));
    destruct (isSupporterOrModerator env (user (accountCache req)));
    destruct (serverCache req) as [[sid pub]|]; try destruct pub;
    destruct (isPrivateChannel env (channelCache req));
    destruct (JS.truthy (serverId (channelCache req)));
    destruct (inbox (channelCache req)) as [[can]|]; try destruct can;
    destruct (existsb _ (TextChannelTypes env));
    destruct (JSText.blank (content (body req)));
    cbn; split; intros H; try discriminate H; try reflexivity; eauto.
Qed.

Lemma createAndRespond_run (env : Env) (req : Request) (a : option Attachment) :
  let attachment :=
    match googleDriveAttachment (body req) with
    | Some gd => Some (driveAttachment env gd)
    | None => a
    end in
  let opts := messageOpts env req attachment in
  createAndRespond env req a =
    match snd (createMessage env opts) with
    | Some e =>
        if JS.str_truthy e then
          (CreateMessage opts
             :: match requestFile req, attachment with
                | Some _, Some x =>
                    match path x with
                    | Some p => if JS.str_truthy p then [DeleteImage p] else []
                    | None => []
                    end
                | _, _ => []
                end,
           Returned {| status := 400; json := ErrorJson e |})
        else ([CreateMessage opts],
              Returned {| status := 200;
                          json := MessageJson (fst (createMessage env opts)) |})
    | None => ([CreateMessage opts],
               Returned {| status := 200;
                           json := MessageJson (fst (createMessage env opts)) |})
    end.
Proof.
  intros attachment opts. unfold createAndRespond. fold attachment. fold opts.
  destruct (createMessage env opts) as [m [e|]]; cbn [snd fst JS.truthy];
    [|reflexivity].
  destruct (JS.str_truthy e); [|reflexivity].
  destruct (requestFile req), attachment as [x|]; try reflexivity.
  cbn [JS.truthy]. destruct (path x) as [p|]; [|reflexivity].
  cbn. destruct (JS.str_truthy p); reflexivity.
Qed.

(** The route uploads at most one image and creates at most one
    message; it deletes an image only after an upload followed by a
    failed creation. An answer given before anything was uploaded or
    created is a 400, and a failed upload is answered with 403 (or the
    route throws) without a message being created. *)
Theorem message_route_effects (env : Env) (req : Request) :
  let run := route env req in
  (trace run = []
   ∧ ∃ j, completion run = Returned {| status := 400; json := j |})
  ∨ (∃ f n c, trace run = [UploadImage f n c]
              ∧ (completion run = Thrown "TypeError"
                 ∨ ∃ j, completion run
                        = Returned {| status := 403; json := j |}))
  ∨ (∃ pre o, trace run = pre ++ [CreateMessage o]
              ∧ (pre = [] ∨ ∃ f n c, pre = [UploadImage f n c])
              ∧ ((∃ m, completion run
                       = Returned {| status := 200; json := MessageJson m |})
                 ∨ ∃ e, completion run
                        = Returned {| status := 400; json := ErrorJson e |}))
  ∨ (∃ f n c o p e,
       trace run = [UploadImage f n c; CreateMessage o; DeleteImage p]
       ∧ completion run = Returned {| status := 400; json := ErrorJson e |}).
Proof.
  intros run. unfold run.
  destruct (gate env req) eqn:Hg.
  2:{ destruct (proj1 (route_gate env req) Hg) as [j ->]. left. eauto. }
  rewrite (proj2 (route_gate env req) Hg). right.
  assert (Hcreate : ∀ a pre,
    (pre = [] ∧ requestFile req = None) ∨ (∃ f n c, pre = [UploadImage f n c]) →
    let run := (pre ++ trace (createAndRespond env req a),
                completion (createAndRespond env req a)) in
    (∃ pre' o, trace run = pre' ++ [CreateMessage o]
               ∧ (pre' = [] ∨ ∃ f n c, pre' = [UploadImage f n c])
               ∧ ((∃ m, completion run
                        = Returned {| status := 200; json := MessageJson m |})
                  ∨ ∃ e, completion run
                         = Returned {| status := 400; json := ErrorJson e |}))
    ∨ (∃ f n c o p e,
         trace run = [UploadImage f n c; CreateMessage o; DeleteImage p]
         ∧ completion run = Returned {| status := 400; json := ErrorJson e |})).
  { intros a pre Hpre. rewrite createAndRespond_run. cbv zeta.
    set (opts := messageOpts env req _).
    assert (Hpre' : pre = [] ∨ ∃ f n c, pre = [UploadImage f n c])
      by (destruct Hpre as [[-> _]|H]; auto).
    destruct (snd (createMessage env opts)) as [e|]; [|left; eauto 10].
    destruct (JS.str_truthy e); [|left; eauto 10].
    destruct (requestFile req) as [f|] eqn:Hf; [|left; eauto 10].
    destruct (match googleDriveAttachment (body req) with
              | Some gd => Some (driveAttachment env gd)
              | None => a
              end) as [x|]; [|left; eauto 10].
    destruct (path x) as [p|]; [|left; eauto 10].
    destruct (JS.str_truthy p) eqn:Hp; [|left; eauto 10].
    destruct Hpre as [[_ [=]]|(f' & n & c & ->)].
    right. cbn. eauto 10. }
  unfold uploadAndCreate, requestFile in *.
  destruct (fileInfo req) as [info|];
    [destruct (file info) as [f|]|].
  - unfold mbind, run_bind, bind, tell.
    destruct (uploadImage env f _ _) as [img err].
    destruct (uploadError_truthy err) eqn:Herr.
    + left. destruct err as [e|]; [|discriminate Herr].
      exists f, (filename info), (channel_id (channelCache req)).
      split; [reflexivity|]. right.
      destruct e as [x|t]; cbn; [eauto|].
      destruct (String.eqb t "INVALID_IMAGE"); eauto.
    + destruct img as [img|].
      * right.
        destruct (createAndRespond env req (Some (uploadedAttachment img)))
          as [tr c] eqn:Hrun.
        specialize (Hcreate (Some (uploadedAttachment img))
                      [UploadImage f (filename info) (channel_id (channelCache req))]).
        rewrite Hrun in Hcreate. apply Hcreate. right. eauto.
      * left. exists f, (filename info), (channel_id (channelCache req)).
        split; [reflexivity|]. left. reflexivity.
  - right. specialize (Hcreate None []).
    destruct (createAndRespond env req None) as [tr c].
    apply Hcreate. left. auto.
  - right. specialize (Hcreate None []).
    destruct (createAndRespond env req None) as [tr c].
    apply Hcreate. left. auto.
Qed.

(** The attachment handed to [createMessage], given what the upload
    produced. *)
Lemma createAndRespond_trace (env : Env) (req : Request) (a : option Attachment) :
  ∃ tail,
    trace (createAndRespond env req a)
    = CreateMessage
        (messageOpts env req
           match googleDriveAttachment (body req) with
           | Some gd => Some (driveAttachment env gd)
           | None => a
           end) :: tail
    ∧ ∀ o, ¬ In (CreateMessage o) tail.
Proof.
  rewrite createAndRespond_run. cbv zeta.
  set (opts := messageOpts env req _).
  destruct (snd (createMessage env opts)) as [e|];
    [|exists []; split; [reflexivity | intros o []]].
  destruct (JS.str_truthy e); [|exists []; split; [reflexivity | intros o []]].
  eexists. split; [reflexivity|]. intros o.
  destruct (requestFile req); [|intros []].
  destruct (match googleDriveAttachment (body req) with
            | Some gd => Some (driveAttachment env gd)
            | None => a
            end) as [x|]; [|intros []].
  destruct (path x) as [p|]; [|intros []].
  destruct (JS.str_truthy p); [intros [[=]|[]] | intros []].
Qed.

Lemma uploadAndCreate_cases (env : Env) (req : Request) :
  (requestFile req = None
   ∧ uploadAndCreate env req = createAndRespond env req None)
  ∨ ∃ info f,
      fileInfo req = Some info ∧ file info = Some f
      ∧ let up := UploadImage f (filename info) (channel_id (channelCache req)) in
        let res := uploadImage env f (filename info)
                     (channel_id (channelCache req)) in
        (∃ e, snd res = Some e ∧ uploadError_truthy (snd res) = true
              ∧ uploadAndCreate env req = ([up], Returned (uploadErrorResponse e)))
        ∨ (uploadError_truthy (snd res) = false ∧ fst res = None
           ∧ uploadAndCreate env req = ([up], Thrown "TypeError"))
        ∨ (∃ img, uploadError_truthy (snd res) = false ∧ fst res = Some img
                  ∧ uploadAndCreate env req
                    = (up :: trace (createAndRespond env req
                                      (Some (uploadedAttachment img))),
                       completion (createAndRespond env req
                                     (Some (uploadedAttachment img))))).
Proof.
  unfold uploadAndCreate, requestFile.
  destruct (fileInfo req) as [info|]; [|left; auto].
  destruct (file info) as [f|] eqn:Hfile; [|left; auto].
  right. exists info, f. split; [reflexivity|]. split; [exact Hfile|].
  cbv zeta. unfold mbind, run_bind, bind, tell.
  destruct (uploadImage env f _ _) as [img err]. cbn [fst snd].
  destruct (uploadError_truthy err) eqn:Herr.
  - left. destruct err as [e|]; [|discriminate Herr]. exists e. auto.
  - right. destruct img as [img|].
    + right. exists img.
      destruct (createAndRespond env req _) as [tr c]. auto.
    + left. auto.
Qed.

Lemma uploadErrorResponse_status (e : UploadError) :
  status (uploadErrorResponse e) = 403.
Proof.
  destruct e as [x|t]; cbn; [reflexivity|].
  destruct (String.eqb t "INVALID_IMAGE"); reflexivity.
Qed.

(** What holds of a request for which [createMessage] is called. *)
Lemma route_creates (env : Env) (req : Request) (o : CreateMessageOpts) :
  In (CreateMessage o) (trace (route env req)) →
  gate env req = true
  ∧ ∃ uploaded pre,
      ((requestFile req = None ∧ uploaded = None ∧ pre = [])
       ∨ ∃ info f img,
           fileInfo req = Some info ∧ file info = Some f
           ∧ fst (uploadImage env f (filename info)
                    (channel_id (channelCache req))) = Some img
           ∧ uploaded = Some (uploadedAttachment img)
           ∧ pre = [UploadImage f (filename info)
                      (channel_id (channelCache req))])
      ∧ o = messageOpts env req
              match googleDriveAttachment (body req) with
              | Some gd => Some (driveAttachment env gd)
              | None => uploaded
              end
      ∧ route env req
        = (pre ++ trace (createAndRespond env req uploaded),
           completion (createAndRespond env req uploaded)).
Proof.
  intros Hin. destruct (gate env req) eqn:Hg.
  2:{ destruct (proj1 (route_gate env req) Hg) as [j Hj].
      rewrite Hj in Hin. destruct Hin. }
  split; [reflexivity|]. rewrite (proj2 (route_gate env req) Hg) in *.
  destruct (uploadAndCreate_cases env req)
    as [[Hnone Hrun]|(info & f & Hinfo & Hf & Hcases)].
  - exists None, []. split; [left; auto|]. rewrite Hrun in *.
    destruct (createAndRespond_trace env req None) as (tail & Htr & Htail).
    split.
    + rewrite Htr in Hin. destruct Hin as [[= <-]|Hin]; [reflexivity|].
      destruct (Htail o Hin).
    + destruct (createAndRespond env req None); reflexivity.
  - cbv zeta in Hcases.
    destruct Hcases as [(e & _ & _ & Hrun)|[(_ & _ & Hrun)|(img & _ & Himg & Hrun)]];
      rewrite Hrun in *.
    + destruct Hin as [[=]|[]].
    + destruct Hin as [[=]|[]].
    + exists (Some (uploadedAttachment img)),
        [UploadImage f (filename info) (channel_id (channelCache req))].
      split; [right; exists info, f, img; auto|].
      destruct (createAndRespond_trace env req (Some (uploadedAttachment img)))
        as (tail & Htr & Htail).
      split; [|reflexivity].
      unfold trace in Hin, Htr. cbn [fst] in Hin. destruct Hin as [[=]|Hin].
      rewrite Htr in Hin.
      destruct Hin as [[= <-]|Hin]; [reflexivity|]. destruct (Htail o Hin).
Qed.

Lemma existsb_Zeqb_In (x : Z) (l : list Z) : existsb (Z.eqb x) l = true ↔ In x l.
Proof.
  rewrite existsb_exists. split.
  - intros (y & Hy & Heq). apply Z.eqb_eq in Heq. subst y. exact Hy.
  - intros Hx. exists x. split; [exact Hx | apply Z.eqb_refl].
Qed.

(** The route answers 400 without uploading or creating anything exactly
    when one of its checks fails. When it does anything, the request
    passed validation, the channel takes text, a direct-message
    recipient accepts messages, a message to a server channel comes from
    a confirmed email, the message is not empty, and an attachment comes
    from a confirmed email and, unless the author is a supporter or
    moderator, goes to a public server and a channel that is not
    private. *)
Theorem message_route_gate (env : Env) (req : Request) :
  (trace (route env req) = [] ↔ gate env req = false)
  ∧ (gate env req = false →
     ∃ j, route env req = ([], Returned {| status := 400; json := j |}))
  ∧ (trace (route env req) ≠ [] →
     customExpressValidatorResult env req = None
     ∧ In (type (channelCache req)) (TextChannelTypes env)
     ∧ (∀ box, inbox (channelCache req) = Some box → canMessage box = true)
     ∧ (JS.truthy (serverId (channelCache req)) = true →
        emailConfirmed (accountCache req) = true)
     ∧ (JSText.blank (content (body req)) = true →
        is_Some (requestFile req) ∨ is_Some (googleDriveAttachment (body req)))
     ∧ (∀ gd, googleDriveAttachment (body req) = Some gd →
          JS.truthy (gd_id gd) = true ∧ JS.truthy (gd_mime gd) = true)
     ∧ (is_Some (requestFile req) ∨ is_Some (googleDriveAttachment (body req)) →
        emailConfirmed (accountCache req) = true
        ∧ (isSupporterOrModerator env (user (accountCache req)) = true
           ∨ ((∀ srv, serverCache req = Some srv → public srv = true)
              ∧ isPrivateChannel env (channelCache req) = false)))).
Proof.
  assert (Hnonempty : gate env req = true → trace (route env req) ≠ []).
  { intros Hg. rewrite (proj2 (route_gate env req) Hg).
    destruct (uploadAndCreate_cases env req)
      as [[_ ->]|(info & f & _ & _ & Hcases)].
    - destruct (createAndRespond_trace env req None) as (tail & -> & _).
      discriminate.
    - cbv zeta in Hcases.
      destruct Hcases as [(e & _ & _ & ->)|[(_ & _ & ->)|(img & _ & _ & ->)]];
        discriminate. }
  split; [|split].
  - split.
    + intros Hnil. destruct (gate env req) eqn:Hg; [|reflexivity].
      destruct (Hnonempty eq_refl Hnil).
    + intros Hg. destruct (proj1 (route_gate env req) Hg) as [j ->]. reflexivity.
  - apply route_gate.
  - intros Hne. assert (Hg : gate env req = true).
    { destruct (gate env req) eqn:Hg; [reflexivity|].
      destruct (proj1 (route_gate env req) Hg) as [j Hj].
      rewrite Hj in Hne. destruct (Hne eq_refl). }
    clear Hne Hnonempty. unfold gate in Hg.
    destruct (customExpressValidatorResult env req) as [e|];
      [rewrite bool_decide_eq_false_2 in Hg by discriminate; discriminate|].
    split; [reflexivity|].
    rewrite bool_decide_eq_true_2 in Hg by reflexivity.
    rewrite !andb_true_iff in Hg.
    destruct Hg as ((((((_ & Hatt) & Hgd) & Hsrv) & Hbox) & Htype) & Hblank).
    split; [apply existsb_Zeqb_In, Htype|].
    split; [intros box Hb; rewrite Hb in Hbox; exact Hbox|].
    split; [intros Hs; rewrite Hs in Hsrv; exact Hsrv|].
    split.
    { intros Hb. rewrite Hb in Hblank. cbn in Hblank.
      apply orb_true_iff in Hblank as [H|H]; apply bool_decide_eq_true in H; auto. }
    split.
    { intros gd Hd. rewrite Hd in Hgd. apply andb_true_iff in Hgd. exact Hgd. }
    intros Hhas.
    assert (Hb : bool_decide (is_Some (googleDriveAttachment (body req)))
                 || bool_decide (is_Some (requestFile req)) = true).
    { apply orb_true_iff.
      destruct Hhas; [right | left]; apply bool_decide_eq_true; assumption. }
    rewrite Hb in Hatt. cbn in Hatt.
    apply andb_true_iff in Hatt as [Hconf Hpol]. split; [exact Hconf|].
    apply orb_true_iff in Hpol as [Hsup|Hpub]; [left; exact Hsup|]. right.
    apply andb_true_iff in Hpub as [Hpub Hpriv]. split.
    + intros srv Hs. rewrite Hs in Hpub. exact Hpub.
    + apply negb_true_iff, Hpriv.
Qed.

(** When the upload of the file fails, the route answers 403 with the
    upload as its only effect: no message is created. *)
Theorem message_route_upload_failure (env : Env) (req : Request)
    (f : File) (n c : string) :
  In (UploadImage f n c) (trace (route env req)) →
  uploadError_truthy (snd (uploadImage env f n c)) = true →
  ∃ e, snd (uploadImage env f n c) = Some e
       ∧ route env req = ([UploadImage f n c], Returned (uploadErrorResponse e))
       ∧ status (uploadErrorResponse e) = 403
       ∧ ∀ o, ¬ In (CreateMessage o) (trace (route env req)).
Proof.
  intros Hin Herr. destruct (gate env req) eqn:Hg.
  2:{ destruct (proj1 (route_gate env req) Hg) as [j Hj].
      rewrite Hj in Hin. destruct Hin. }
  rewrite (proj2 (route_gate env req) Hg) in *.
  destruct (uploadAndCreate_cases env req)
    as [[_ Hrun]|(info & f' & Hinfo & Hf & Hcases)].
  - rewrite Hrun in Hin.
    destruct (createAndRespond_trace env req None) as (tail & Htr & _).
    rewrite createAndRespond_run in Hin. cbv zeta in Hin.
    unfold requestFile in Hin.
    destruct (snd (createMessage env _)) as [e|]; [|destruct Hin as [[=]|[]]].
    destruct (JS.str_truthy e); [|destruct Hin as [[=]|[]]].
    destruct Hin as [[=]|Hin].
    destruct (fileInfo req) as [i|]; [|destruct Hin].
    destruct (file i); [|destruct Hin].
    destruct (match googleDriveAttachment (body req) with
              | Some gd => Some (driveAttachment env gd)
              | None => None
              end) as [x|]; [|destruct Hin].
    destruct (path x) as [p|]; [|destruct Hin].
    destruct (JS.str_truthy p); [destruct Hin as [[=]|[]] | destruct Hin].
  - cbv zeta in Hcases.
    destruct Hcases as [(e & He & _ & Hrun)|[(Hok & _ & Hrun)|(img & Hok & _ & Hrun)]];
      rewrite Hrun in *.
    + destruct Hin as [[= <- <- <-]|[]]. exists e.
      split; [exact He|]. split; [reflexivity|].
      split; [apply uploadErrorResponse_status|]. intros o [[=]|[]].
    + destruct Hin as [[= <- <- <-]|[]]. congruence.
    + cbn [trace fst] in Hin. destruct Hin as [[= <- <- <-]|Hin]; [congruence|].
      exfalso.
      destruct (createAndRespond_trace env req (Some (uploadedAttachment img)))
        as (tail & Htr & _).
      rewrite createAndRespond_run in Hin. cbv zeta in Hin.
      destruct (snd (createMessage env _)) as [e|]; [|destruct Hin as [[=]|[]]].
      destruct (JS.str_truthy e); [|destruct Hin as [[=]|[]]].
      destruct Hin as [[=]|Hin].
      destruct (requestFile req); [|destruct Hin].
      destruct (match googleDriveAttachment (body req) with
                | Some gd => Some (driveAttachment env gd)
                | None => Some (uploadedAttachment img)
                end) as [x|]; [|destruct Hin].
      destruct (path x) as [p|]; [|destruct Hin].
      destruct (JS.str_truthy p); [destruct Hin as [[=]|[]] | destruct Hin].
Qed.

Lemma string_app_cons (c : ascii) (s t : string) :
  String c s +:+ t = String c (s +:+ t).
Proof. reflexivity. Qed.

Lemma prefix_app (needle hay : JS.Text) :
  JSText.prefix needle hay = true ↔ ∃ post, hay = needle ++ post.
Proof.
  revert hay. induction needle as [|c needle IH]; intros hay.
  - split; [intros _; exists hay; reflexivity|]. destruct hay; reflexivity.
  - destruct hay as [|h hay]; cbn [JSText.prefix].
    + split; [discriminate | intros (post & H)]. discriminate H.
    + rewrite andb_true_iff, N.eqb_eq, IH. split.
      * intros [-> (post & ->)]. exists post. reflexivity.
      * intros (post & H). injection H as -> ->. eauto.
Qed.

Lemma includes_app (needle hay : JS.Text) :
  JSText.includes needle hay = true ↔ ∃ pre post, hay = pre ++ needle ++ post.
Proof.
  induction hay as [|h hay IH]; cbn [JSText.includes];
    rewrite orb_true_iff, prefix_app.
  - split.
    + intros [(post & H)|[=]]. exists [], post. exact H.
    + intros (pre & post & H). left. destruct pre as [|c pre]; [eauto|].
      discriminate H.
  - rewrite IH. split.
    + intros [(post & H)|(pre & post & H)].
      * exists [], post. exact H.
      * exists (h :: pre), post. rewrite H. reflexivity.
    + intros (pre & post & H). destruct pre as [|c pre].
      * left. eauto.
      * right. injection H as _ H. eauto.
Qed.

(** The message handed to [createMessage] carries the channel of the
    request, the requesting user, the content as it was sent and the
    socket id; it is marked as mentioning everyone exactly when the
    content contains [[@:e]] and the member may mention everyone. *)
Theorem message_route_message (env : Env) (req : Request)
    (o : CreateMessageOpts) :
  In (CreateMessage o) (trace (route env req)) →
  cm_channelId o = channel_id (channelCache req)
  ∧ cm_userId o = user_id (user (accountCache req))
  ∧ cm_content o = content (body req)
  ∧ cm_socketId o = socketId (body req)
  ∧ cm_type o = MessageType_CONTENT env
  ∧ cm_serverId o = option_map server_id (server (channelCache req))
  ∧ (cm_everyoneMentioned o = Some true
     ↔ ∃ c pre post, content (body req) = Some c
                     ∧ c = pre ++ JS.text "[@:e]" ++ post
                     ∧ memberHasRolePermission env req = true)
  ∧ (cm_everyoneMentioned o = None ↔ content (body req) = None).
Proof.
  intros Hin. destruct (route_creates env req o Hin)
    as (_ & uploaded & pre & _ & -> & _).
  cbn [cm_channelId cm_userId cm_content cm_socketId cm_type cm_serverId
       cm_everyoneMentioned messageOpts].
  do 6 (split; [reflexivity|]). unfold canMentionEveryone.
  destruct (content (body req)) as [c|]; cbn [option_map JS.flag].
  - destruct (JSText.includes (JS.text "[@:e]") c) eqn:Hinc.
    + split; [|split; discriminate]. split.
      * intros [= Hperm]. apply includes_app in Hinc as (pre' & post & Hc).
        exists c, pre', post. auto.
      * intros (c' & pre' & post & [= <-] & _ & Hperm). rewrite Hperm.
        reflexivity.
    + split; [|split; discriminate]. split; [discriminate|].
      intros (c' & pre' & post & [= <-] & Hc & _).
      assert (JSText.includes (JS.text "[@:e]") c = true)
        by (apply includes_app; eauto). congruence.
  - split; [|split; reflexivity]. split; [discriminate|].
    intros (c & _ & _ & [=] & _).
Qed.

(** A Google Drive attachment takes precedence over an uploaded file:
    the message then carries the Drive attachment, which has no path,
    and the uploaded image is never deleted. Without a Drive attachment
    the message carries the uploaded image, or no attachment when no
    file was sent. *)
Theorem message_route_attachment (env : Env) (req : Request)
    (o : CreateMessageOpts) :
  In (CreateMessage o) (trace (route env req)) →
  (∀ gd, googleDriveAttachment (body req) = Some gd →
     cm_attachment o = Some (driveAttachment env gd)
     ∧ (∀ p, ¬ In (DeleteImage p) (trace (route env req)))
     ∧ (∀ info f, fileInfo req = Some info → file info = Some f →
          In (UploadImage f (filename info) (channel_id (channelCache req)))
             (trace (route env req))))
  ∧ (googleDriveAttachment (body req) = None →
     (∀ info f, fileInfo req = Some info → file info = Some f →
        ∃ img, fst (uploadImage env f (filename info)
                      (channel_id (channelCache req))) = Some img
               ∧ cm_attachment o = Some (uploadedAttachment img))
     ∧ (requestFile req = None → cm_attachment o = None)).
Proof.
  intros Hin. destruct (route_creates env req o Hin)
    as (_ & uploaded & pre & Hup & -> & Hrun).
  cbn [cm_attachment messageOpts]. split.
  - intros gd Hgd. rewrite Hgd. split; [reflexivity|]. split.
    + intros p. rewrite Hrun, createAndRespond_run. cbv zeta. rewrite Hgd.
      unfold trace. cbn [fst]. rewrite in_app_iff. intros [Hp|Hp].
      * destruct Hup as [(_ & _ & ->)|(info & f & img & _ & _ & _ & _ & ->)];
          [destruct Hp | destruct Hp as [[=]|[]]].
      * destruct (snd (createMessage env _)) as [e|];
          [|destruct Hp as [[=]|[]]].
        destruct (JS.str_truthy e); [|destruct Hp as [[=]|[]]].
        destruct Hp as [[=]|Hp]. destruct (requestFile req); destruct Hp.
    + intros info f Hinfo Hf. rewrite Hrun. unfold trace. cbn [fst].
      apply in_app_iff. left.
      destruct Hup as [(Hnone & _ & _)|(info' & f' & img & Hinfo' & Hf' & _ & _ & ->)].
      * unfold requestFile in Hnone. rewrite Hinfo, Hf in Hnone. discriminate.
      * left. congruence.
  - intros Hgd. rewrite Hgd. split.
    + intros info f Hinfo Hf.
      destruct Hup as [(Hnone & _ & _)|(info' & f' & img & Hinfo' & Hf' & Himg & -> & _)].
      * unfold requestFile in Hnone. rewrite Hinfo, Hf in Hnone. discriminate.
      * exists img. split; [congruence | reflexivity].
    + intros Hnone.
      destruct Hup as [(_ & -> & _)|(info' & f' & img & Hinfo' & Hf' & _)];
        [reflexivity|].
      unfold requestFile in Hnone. rewrite Hinfo', Hf' in Hnone. discriminate.
Qed.

(** When [createMessage] fails, the route answers 400 with its error,
    and deletes the uploaded image exactly when a file was uploaded, its
    path is not empty and the message had no Google Drive attachment. *)
Theorem message_route_cleanup (env : Env) (req : Request)
    (o : CreateMessageOpts) (e : string) :
  In (CreateMessage o) (trace (route env req)) →
  snd (createMessage env o) = Some e →
  e ≠ "" →
  completion (route env req)
  = Returned {| status := 400; json := ErrorJson e |}
  ∧ ∀ p, In (DeleteImage p) (trace (route env req))
         ↔ googleDriveAttachment (body req) = None ∧ p ≠ ""
           ∧ ∃ info f img,
               fileInfo req = Some info ∧ file info = Some f
               ∧ fst (uploadImage env f (filename info)
                        (channel_id (channelCache req))) = Some img
               ∧ image_path img = p.
Proof.
  intros Hin Herr Hne. destruct (route_creates env req o Hin)
    as (_ & uploaded & pre & Hup & Ho & Hrun).
  rewrite Hrun, createAndRespond_run. cbv zeta. rewrite <- Ho, Herr.
  apply str_truthy_true in Hne. rewrite Hne.
  unfold completion, trace. cbn [fst snd]. split; [reflexivity|].
  intros p. rewrite in_app_iff.
  destruct Hup as [(Hnone & -> & ->)|(info & f & img & Hinfo & Hf & Himg & -> & ->)].
  - rewrite Hnone. split.
    + intros [[]|[[=]|[]]].
    + intros (_ & _ & info & f & img & Hinfo & Hf & _).
      unfold requestFile in Hnone. rewrite Hinfo, Hf in Hnone. discriminate.
  - assert (Hfile : requestFile req = Some f)
      by (unfold requestFile; rewrite Hinfo; exact Hf).
    rewrite Hfile.
    destruct (googleDriveAttachment (body req)) as [gd|].
    + split; [intros [[[=]|[]]|[[=]|[]]] | intros ([=] & _)].
    + cbn [path uploadedAttachment].
      destruct (JS.str_truthy (image_path img)) eqn:Hp.
      * split.
        -- intros [[[=]|[]]|[[=]|[[= <-]|[]]]]. split; [reflexivity|].
           split; [apply str_truthy_true, Hp|]. exists info, f, img. auto.
        -- intros (_ & _ & info' & f' & img' & Hinfo' & Hf' & Himg' & <-).
           right. right. left. f_equal.
           rewrite Hinfo in Hinfo'. injection Hinfo' as <-.
           rewrite Hf in Hf'. injection Hf' as <-.
           rewrite Himg in Himg'. injection Himg' as <-. reflexivity.
      * split; [intros [[[=]|[]]|[[=]|[]]]|].
        intros (_ & Hpne & info' & f' & img' & Hinfo' & Hf' & Himg' & <-).
        rewrite Hinfo in Hinfo'. injection Hinfo' as <-.
        rewrite Hf in Hf'. injection Hf' as <-.
        rewrite Himg in Himg'. injection Himg' as <-.
        apply str_truthy_true in Hpne. congruence.
Qed.

End MessageCreateFacts.

Lemma message_route_upload_failure_witness :
  MessageCreate.route
    (MessageCreate.sample_env
       (None, Some (MessageCreate.ErrObject "INVALID_IMAGE")) (None, None))
    (MessageCreate.sample_request (Some "look") (Some {| MessageCreate.handle := "f1" |})
       None true)
  = ([MessageCreate.UploadImage {| MessageCreate.handle := "f1" |} "cat.png" "chan"],
     Eff.Returned {| MessageCreate.status := 403;
                     MessageCreate.json :=
                       MessageCreate.ErrorJson "You can only upload images for now." |}).
Proof.
  destruct (message_route_upload_failure
              (MessageCreate.sample_env
                 (None, Some (MessageCreate.ErrObject "INVALID_IMAGE")) (None, None))
              (MessageCreate.sample_request (Some "look")
                 (Some {| MessageCreate.handle := "f1" |}) None true)
              {| MessageCreate.handle := "f1" |} "cat.png" "chan")
    as (e & He & Hrun & _).
  - left. reflexivity.
  - reflexivity.
  - injection He as <-. exact Hrun.
Defined.

Lemma message_route_message_witness :
  MessageCreate.cm_everyoneMentioned
    (MessageCreate.messageOpts
       (MessageCreate.sample_env (None, None) (Some {| MessageCreate.message_id := "m1" |}, None))
       (MessageCreate.sample_request (Some "hello [@:e]") None None true) None)
  = Some true.
Proof.
  apply (message_route_message
           (MessageCreate.sample_env (None, None)
              (Some {| MessageCreate.message_id := "m1" |}, None))
           (MessageCreate.sample_request (Some "hello [@:e]") None None true)).
  - left. reflexivity.
  - exists (JS.text "hello [@:e]"), (JS.text "hello "), []. repeat split.
Defined.

Lemma message_route_attachment_witness :
  ¬ In (MessageCreate.DeleteImage "chan/1/cat.png")
           (Eff.trace
              (MessageCreate.route
                 (MessageCreate.sample_env (Some MessageCreate.sample_image, None)
                    (None, Some "Channel is archived."))
                 (MessageCreate.sample_request None
                    (Some {| MessageCreate.handle := "f1" |})
                    (Some MessageCreate.sample_drive) true))).
Proof.
  eapply (message_route_attachment
            (MessageCreate.sample_env (Some MessageCreate.sample_image, None)
               (None, Some "Channel is archived."))
            (MessageCreate.sample_request None
               (Some {| MessageCreate.handle := "f1" |})
               (Some MessageCreate.sample_drive) true)).
  - right. left. reflexivity.
  - reflexivity.
Defined.

Lemma message_route_cleanup_witness :
  In (MessageCreate.DeleteImage "chan/1/cat.png")
     (Eff.trace
        (MessageCreate.route
           (MessageCreate.sample_env (Some MessageCreate.sample_image, None)
              (None, Some "Channel is archived."))
           (MessageCreate.sample_request None
              (Some {| MessageCreate.handle := "f1" |}) None true))).
Proof.
  eapply (message_route_cleanup
            (MessageCreate.sample_env (Some MessageCreate.sample_image, None)
               (None, Some "Channel is archived."))
            (MessageCreate.sample_request None
               (Some {| MessageCreate.handle := "f1" |}) None true)).
  - right. left. reflexivity.
  - reflexivity.
  - discriminate.
  - split; [reflexivity|]. split; [discriminate|].
    exists {| MessageCreate.file := Some {| MessageCreate.handle := "f1" |};
              MessageCreate.filename := "cat.png" |},
      {| MessageCreate.handle := "f1" |}, MessageCreate.sample_image.
    repeat split.
Defined.

(** ** routes/posts/postCreate.ts *)

Section PostCreateFacts.
Import Eff PostCreate.

Lemma upload_run (env : Env) (req : Request) :
  (requestFile req = None ∧ upload env req = ([], Returned None))
  ∨ ∃ info f,
      fileInfo req = Some info ∧ MessageCreate.file info = Some f
      ∧ upload env req
        = ([UploadImage f (MessageCreate.filename info) (user_id req)],
           Returned
             (option_map
                (λ img, {| width := Some (MessageCreate.image_width img);
                           height := Some (MessageCreate.image_height img);
                           path := MessageCreate.image_path img |})
                (fst (uploadImage env f (MessageCreate.filename info)
                        (user_id req))))).
Proof.
  unfold upload, requestFile.
  destruct (fileInfo req) as [info|]; [|left; auto].
  destruct (MessageCreate.file info) as [f|] eqn:Hf; [|left; auto].
  right. exists info, f. split; [reflexivity|]. split; [exact Hf|].
  unfold mbind, run_bind, bind, tell.
  destruct (uploadImage env f _ _) as [[img|] err]; reflexivity.
Qed.

(** A post without content, or with only white space, and without a
    file is answered 400, like a request that fails validation, and
    nothing is uploaded or created; every other request creates a
    post. *)
Theorem post_route_rejects (env : Env) (req : Request) :
  (trace (route env req) = []
   ↔ is_Some (customExpressValidatorResult env req)
     ∨ (JSText.blank (content (body req)) = true ∧ requestFile req = None))
  ∧ (trace (route env req) = [] →
     ∃ j, completion (route env req) = Returned {| status := 400; json := j |}).
Proof.
  unfold route.
  destruct (customExpressValidatorResult env req) as [e|].
  { split; [split; eauto | eauto]. }
  destruct (JSText.blank (content (body req))) eqn:Hb;
    destruct (requestFile req) as [f|] eqn:Hf; cbn [andb negb].
  - change (bool_decide (is_Some (Some f))) with true. cbn [negb].
    destruct (upload_run env req) as [[Hnone _]|(info & f' & _ & _ & ->)];
      [congruence|].
    split; [split|]; [discriminate | | discriminate].
    intros [[? [=]]|[_ [=]]].
  - change (bool_decide (is_Some (@None MessageCreate.File))) with false.
    cbn [negb].
    split; [split; auto | eauto].
  - change (bool_decide (is_Some (Some f))) with true. cbn [negb].
    destruct (upload_run env req) as [[Hnone _]|(info & f' & _ & _ & ->)];
      [congruence|].
    split; [split|]; [discriminate | | discriminate].
    intros [[? [=]]|[[=] _]].
  - destruct (upload_run env req) as [[_ ->]|(info & f' & Hi & Hf' & _)].
    + split; [split|]; [discriminate | | discriminate].
      intros [[? [=]]|[[=] _]].
    + unfold requestFile in Hf. rewrite Hi, Hf' in Hf. discriminate.
Qed.

(** A request that passes the two checks creates exactly one post, as
    the last effect, with the content as it was sent, the requesting
    user and the post replied to, and is answered with the post; the
    error of the upload is ignored: when the upload yields no image the
    post is created without an attachment. *)
Theorem post_route_creates (env : Env) (req : Request) :
  customExpressValidatorResult env req = None →
  JSText.blank (content (body req)) = false ∨ is_Some (requestFile req) →
  ∃ uploads attachment,
    let opts := {| cp_content := content (body req);
                   cp_userId := user_id req;
                   cp_commentToId := postId (body req);
                   cp_attachment := attachment |} in
    route env req
    = (uploads ++ [CreatePost opts],
       Returned {| status := 200; json := PostJson (createPost env opts) |})
    ∧ (requestFile req = None → uploads = [] ∧ attachment = None)
    ∧ (∀ info f, fileInfo req = Some info → MessageCreate.file info = Some f →
         uploads = [UploadImage f (MessageCreate.filename info) (user_id req)]
         ∧ match fst (uploadImage env f (MessageCreate.filename info)
                        (user_id req)) with
           | Some img =>
               attachment
               = Some {| width := Some (MessageCreate.image_width img);
                         height := Some (MessageCreate.image_height img);
                         path := MessageCreate.image_path img |}
           | None => attachment = None
           end).
Proof.
  intros Hv Hok. unfold route. rewrite Hv.
  assert (Hcond : JSText.blank (content (body req))
                  && negb (bool_decide (is_Some (requestFile req))) = false).
  { destruct Hok as [-> | Hf]; [reflexivity|].
    rewrite bool_decide_eq_true_2 by exact Hf. apply andb_false_r. }
  rewrite Hcond.
  destruct (upload_run env req) as [[Hnone ->]|(info & f & Hi & Hf & ->)].
  - exists [], None. split; [reflexivity|]. split; [auto|].
    intros info f Hi Hf. unfold requestFile in Hnone.
    rewrite Hi, Hf in Hnone. discriminate.
  - eexists [_], _. split; [reflexivity|]. split.
    + unfold requestFile. rewrite Hi, Hf. discriminate.
    + intros info' f' Hi' Hf'. rewrite Hi in Hi'. injection Hi' as <-.
      rewrite Hf in Hf'. injection Hf' as <-. split; [reflexivity|].
      destruct (fst (uploadImage env f _ _)); reflexivity.
Qed.

End PostCreateFacts.

Lemma post_route_creates_witness :
  PostCreate.route
    (PostCreate.sample_env (None, Some (MessageCreate.ErrString "too large")))
    (PostCreate.sample_request (Some " hi ") (Some {| MessageCreate.handle := "f1" |}))
  = ([PostCreate.UploadImage {| MessageCreate.handle := "f1" |} "cat.png" "alice";
      PostCreate.CreatePost
        {| PostCreate.cp_content := Some (JS.text " hi ");
           PostCreate.cp_userId := "alice";
           PostCreate.cp_commentToId := None; PostCreate.cp_attachment := None |}],
     Eff.Returned {| PostCreate.status := 200;
                     PostCreate.json := PostCreate.PostJson {| PostCreate.post_id := "p1" |} |}).
Proof.
  destruct (post_route_creates
              (PostCreate.sample_env (None, Some (MessageCreate.ErrString "too large")))
              (PostCreate.sample_request (Some " hi ")
                 (Some {| MessageCreate.handle := "f1" |})) eq_refl)
    as (uploads & attachment & Hrun & _ & Hfile).
  - left. reflexivity.
  - destruct (Hfile _ _ eq_refl eq_refl) as [-> Hatt]. cbn in Hatt.
    rewrite Hatt in Hrun. exact Hrun.
Defined.

(** ** Account deletion *)

Section DeleteAccountFacts.
Import Eff DeleteAccount.

(** The account is deleted only for a request that passed validation,
    whose account was found and whose password was accepted, and it is
    the requesting user's own account; a request that satisfies the
    three performs the lookup, the password check and the deletion, in
    this order. *)
Theorem delete_account_requires_password (env : Env) (req : Request) :
  (∀ u, In (DeleteAccountOf u) (trace (route env req)) →
     u = user_id req
     ∧ customExpressValidatorResult env req = None
     ∧ ∃ a, findUnique env (account_id req) = LookupResolved (Some a)
            ∧ checkUserPassword env (account_password a) (password req) = true)
  ∧ (customExpressValidatorResult env req = None →
     ∀ a, findUnique env (account_id req) = LookupResolved (Some a) →
       checkUserPassword env (account_password a) (password req) = true →
       trace (route env req)
       = [FindUnique (account_id req);
          CheckUserPassword (account_password a) (password req);
          DeleteAccountOf (user_id req)]
       ∧ (status <$> match completion (route env req) with
                     | Returned r => Some r
                     | Thrown _ => None
                     end) = Some (match deleteAccount env (user_id req) with
                                  | Some e => if JS.str_truthy e then 400 else 200
                                  | None => 200
                                  end)).
Proof.
  unfold route. split.
  - intros u. destruct (customExpressValidatorResult env req) as [e|];
      [intros []|].
    unfold mbind, run_bind, bind, tell, caught.
    destruct (findUnique env (account_id req)) as [|[a|]];
      cbn; try (intros [[=]|[]]).
    destruct (checkUserPassword env _ _) eqn:Hpw; cbn.
    + destruct (deleteAccount env (user_id req)) as [e|];
        [destruct (JS.str_truthy e)|]; cbn;
        intros [[=]|[[=]|[[= <-]|[]]]]; eauto.
    + intros [[=]|[[=]|[]]].
  - intros -> a Hfind Hpw. unfold mbind, run_bind, bind, tell, caught.
    rewrite Hfind, Hpw. cbn.
    destruct (deleteAccount env (user_id req)) as [e|];
      [destruct (JS.str_truthy e)|]; cbn; auto.
Qed.

(** A lookup of the account that fails in the database is answered like
    a missing account, with 404: nothing is thrown, the password is not
    checked and nothing is deleted. A wrong password is answered 403
    without a deletion. *)
Theorem delete_account_refusals (env : Env) (req : Request) :
  customExpressValidatorResult env req = None →
  (findUnique env (account_id req) = LookupRejected
   ∨ findUnique env (account_id req) = LookupResolved None →
   route env req
   = ([FindUnique (account_id req)],
      Returned {| status := 404;
                  json := ErrorJson "Something went wrong. Try again later." None |}))
  ∧ (∀ a, findUnique env (account_id req) = LookupResolved (Some a) →
       checkUserPassword env (account_password a) (password req) = false →
       route env req
       = ([FindUnique (account_id req);
           CheckUserPassword (account_password a) (password req)],
          Returned {| status := 403;
                      json := ErrorJson "Invalid password." (Some "password") |})).
Proof.
  intros Hv. unfold route. rewrite Hv. split.
  - intros [-> | ->]; reflexivity.
  - intros a -> Hpw. unfold mbind, run_bind, bind, tell, caught.
    rewrite Hpw. reflexivity.
Qed.

End DeleteAccountFacts.

Lemma delete_account_refusals_witness :
  DeleteAccount.route (DeleteAccount.sample_env false) DeleteAccount.sample_request
  = ([DeleteAccount.FindUnique "acc-1";
      DeleteAccount.CheckUserPassword "$2b$hash" (Some "hunter2")],
     Eff.Returned {| DeleteAccount.status := 403;
                     DeleteAccount.json :=
                       DeleteAccount.ErrorJson "Invalid password." (Some "password") |}).
Proof.
  apply (proj2 (delete_account_refusals (DeleteAccount.sample_env false)
                  DeleteAccount.sample_request eq_refl)
           {| DeleteAccount.account_password := "$2b$hash" |});
    reflexivity.
Defined.

(** ** Moderation: updating a user *)

Section UpdateUserFacts.
Import Eff UpdateUser.

Lemma trimmed_or_run (f : Field) (fallback : JS.Text) :
  trimmed_or f fallback
  = match f with
    | Nullish => ([], Returned fallback)
    | Str t => ([], Returned (if JS.text_truthy (Some (JSText.trim t))
                              then JSText.trim t else fallback))
    | Other _ => ([], Thrown "TypeError")
    | TrimEntry => ([], Thrown "TypeError")
    end.
Proof.
  destruct f as [|t|b|]; reflexivity.
Qed.

Lemma applyUpdate_run (env : Env) (req : Request) :
  let uid := userId req in
  let log d :=
    AuditLogCreate
      {| actionById := moderator_id req;
         log_username := updated_username (accountUpdate env uid d);
         log_userId := updated_id (accountUpdate env uid d) |} in
  let answer d :=
    Returned {| status := 200; json := UserJson (accountUpdate env uid d) |} in
  applyUpdate env req
  = match newPassword (body req) with
    | TrimEntry => ([], Thrown "TypeError")
    | Other _ =>
        let d := updateOf env (body req) None in
        ([AccountUpdate uid d; RemoveAccountCache [uid]], Thrown "TypeError")
    | Nullish =>
        let d := updateOf env (body req) None in
        ([AccountUpdate uid d; RemoveAccountCache [uid]; log d], answer d)
    | Str t =>
        let d := updateOf env (body req) (Some (JSText.trim t)) in
        ([AccountUpdate uid d; RemoveAccountCache [uid]]
         ++ (if JS.text_truthy (Some (JSText.trim t))
             then [EmitAuthenticateError uid; DisconnectSockets uid]
             else [])
         ++ [log d], answer d)
    end.
Proof.
  unfold applyUpdate. cbv zeta.
  destruct (newPassword (body req)) as [|t|b|]; try reflexivity.
  unfold trim_if_any, trim_of, mbind, run_bind, bind, ret, tell.
  cbn [app fst snd].
  destruct (JS.text_truthy (Some (JSText.trim t))); reflexivity.
Qed.

(** What holds when the last part of the route updates the account. *)
Lemma applyUpdate_updates (env : Env) (req : Request) (uid : string)
    (d : Update) :
  In (AccountUpdate uid d) (trace (applyUpdate env req)) →
  uid = userId req
  ∧ ∃ pw, trim_if_any (newPassword (body req)) = ([], Returned pw)
          ∧ d = updateOf env (body req) pw.
Proof.
  rewrite applyUpdate_run. cbv beta zeta.
  destruct (newPassword (body req)) as [|t|b|]; unfold trace; cbn [fst].
  - intros [[= <- <-]|[[=]|[[=]|[]]]]. split; [reflexivity|].
    exists None. split; reflexivity.
  - intros [[= <- <-]|[[=]|Hin]].
    + split; [reflexivity|]. exists (Some (JSText.trim t)). split; reflexivity.
    + cbn [app] in Hin. apply in_app_iff in Hin as [Hin|[[=]|[]]].
      destruct (JS.text_truthy _); [destruct Hin as [[=]|[[=]|[]]] | destruct Hin].
  - intros [[= <- <-]|[[=]|[]]]. split; [reflexivity|].
    exists None. split; reflexivity.
  - intros [].
Qed.

(** What holds when the duplicate check and what follows it update the
    account. *)
Lemma checkDuplicate_updates (env : Env) (req : Request)
    (account : TargetUser) (uid : string) (d : Update) :
  In (AccountUpdate uid d) (trace (checkDuplicate env req account)) →
  In (AccountUpdate uid d) (trace (applyUpdate env req))
  ∧ ((field_truthy (tag (body req)) || field_truthy (username (body req))
      = false
      ∧ checkDuplicate env req account = applyUpdate env req)
     ∨ (field_truthy (tag (body req)) || field_truthy (username (body req))
        = true
        ∧ ∃ t u,
            trimmed_or (tag (body req)) (target_tag account) = ([], Returned t)
            ∧ trimmed_or (username (body req)) (target_username account)
              = ([], Returned u)
            ∧ findDuplicate env t u (userId req) = false
            ∧ checkDuplicate env req account
              = (FindDuplicate t u (userId req) :: trace (applyUpdate env req),
                 completion (applyUpdate env req)))).
Proof.
  unfold checkDuplicate.
  destruct (field_truthy (tag (body req)) || field_truthy (username (body req)));
    [|intros Hin; split; [exact Hin | left; split; reflexivity]].
  destruct (trimmed_or (tag (body req)) (target_tag account))
    as [tr1 [t|e1]] eqn:Ht;
    pose proof Ht as Ht'; rewrite trimmed_or_run in Ht';
    destruct (tag (body req)); try discriminate Ht';
    injection Ht' as <- Ht'; try (intros []);
    (destruct (trimmed_or (username (body req)) (target_username account))
       as [tr2 [u|e2]] eqn:Hu;
     pose proof Hu as Hu'; rewrite trimmed_or_run in Hu';
     destruct (username (body req)); try discriminate Hu';
     injection Hu' as <- Hu'; try (intros []));
    unfold mbind, run_bind, bind, ret, tell, trace, completion;
    cbn [app fst snd];
    (destruct (findDuplicate env t u (userId req)) eqn:Hd;
     [intros [[=]|[]]|]);
    destruct (applyUpdate env req) as [tr c]; cbn [app fst snd];
    (intros [[=]|Hin]; split; [exact Hin|]; right; split; [reflexivity|];
     exists t, u; repeat split; reflexivity || assumption).
Qed.

(** What holds of a request for which the account is updated. *)
Lemma route_updates (env : Env) (req : Request) (uid : string) (d : Update) :
  In (AccountUpdate uid d) (trace (route env req)) →
  customExpressValidatorResult env req = None
  ∧ (∃ m, findModerator env (account_id req) = Some m
          ∧ checkUserPassword env (moderator_password m) (password (body req))
            = true)
  ∧ ∃ account,
      findTarget env (userId req) = Some account
      ∧ (∀ b, badges (body req) = Some b →
           hasBit env b (FOUNDER_bit env)
           = hasBit env (target_badges account) (FOUNDER_bit env))
      ∧ In (AccountUpdate uid d) (trace (checkDuplicate env req account))
      ∧ route env req
        = ([FindModerator (account_id req); FindTarget (userId req)]
           ++ trace (checkDuplicate env req account),
           completion (checkDuplicate env req account)).
Proof.
  unfold route.
  destruct (customExpressValidatorResult env req) as [e|]; [intros []|].
  unfold mbind, run_bind, bind, tell.
  destruct (findModerator env (account_id req)) as [m|];
    [|cbn; intros [[=]|[]]].
  destruct (checkUserPassword env _ _) eqn:Hpw; cbn [negb];
    [|cbn; intros [[=]|[]]].
  destruct (findTarget env (userId req)) as [account|];
    [|cbn; intros [[=]|[[=]|[]]]].
  destruct (badges (body req)) as [b|] eqn:Hb.
  - cbv zeta.
    destruct (Bool.eqb (hasBit env (target_badges account) (FOUNDER_bit env))
                (hasBit env b (FOUNDER_bit env))) eqn:Heq; cbn [negb];
      [|cbn; intros [[=]|[[=]|[]]]].
    destruct (checkDuplicate env req account) as [tr c] eqn:Hrun.
    unfold trace, completion. cbn [fst snd app].
    intros [[=]|[[=]|Hin]].
    split; [reflexivity|]. split; [eauto|].
    exists account. rewrite Hrun. split; [reflexivity|]. split.
    + intros b' [= <-]. symmetry. apply Bool.eqb_prop, Heq.
    + split; [exact Hin | reflexivity].
  - destruct (checkDuplicate env req account) as [tr c] eqn:Hrun.
    unfold trace, completion. cbn [fst snd app].
    intros [[=]|[[=]|Hin]].
    split; [reflexivity|]. split; [eauto|].
    exists account. rewrite Hrun. split; [reflexivity|]. split.
    + intros b' [=].
    + split; [exact Hin | reflexivity].
Qed.

(** The whole run of a request for which the account is updated: some
    reads, then the last part of the route. *)
Lemma route_updates_run (env : Env) (req : Request) (uid : string)
    (d : Update) :
  In (AccountUpdate uid d) (trace (route env req)) →
  In (AccountUpdate uid d) (trace (applyUpdate env req))
  ∧ ∃ pre, reads pre
           ∧ route env req
             = (pre ++ trace (applyUpdate env req),
                completion (applyUpdate env req)).
Proof.
  intros Hin.
  destruct (route_updates env req uid d Hin)
    as (_ & _ & account & _ & _ & Hin' & Hrun).
  destruct (checkDuplicate_updates env req account uid d Hin')
    as (Hin'' & [(_ & Heq)|(_ & t & u & _ & _ & _ & Heq)]);
    (split; [exact Hin''|]); rewrite Hrun, Heq.
  - exists [FindModerator (account_id req); FindTarget (userId req)].
    split; [intros e [<-|[<-|[]]]; exact I | reflexivity].
  - exists [FindModerator (account_id req); FindTarget (userId req);
            FindDuplicate t u (userId req)].
    split; [intros e [<-|[<-|[<-|[]]]]; exact I | reflexivity].
Qed.


(** The founder badge cannot be given or taken away: an update is made
    only when the new badges agree with the old ones on the founder
    bit, and a request that would change it is answered 403 after the
    two lookups, without an update. *)
Theorem update_user_founder_badge (env : Env) (req : Request) :
  (∀ uid d b account,
     In (AccountUpdate uid d) (trace (route env req)) →
     badges (body req) = Some b →
     findTarget env (userId req) = Some account →
     hasBit env b (FOUNDER_bit env)
     = hasBit env (target_badges account) (FOUNDER_bit env))
  ∧ (∀ m b account,
       customExpressValidatorResult env req = None →
       findModerator env (account_id req) = Some m →
       checkUserPassword env (moderator_password m) (password (body req)) = true →
       findTarget env (userId req) = Some account →
       badges (body req) = Some b →
       hasBit env b (FOUNDER_bit env)
       ≠ hasBit env (target_badges account) (FOUNDER_bit env) →
       route env req
       = ([FindModerator (account_id req); FindTarget (userId req)],
          Returned {| status := 403;
                      json := ErrorJson ("Cannot modify the " +:+ FOUNDER_name env
                                         +:+ " badge") None |})).
Proof.
  split.
  - intros uid d b account Hin Hb Ht.
    destruct (route_updates env req uid d Hin)
      as (_ & _ & account' & Ht' & Hbit & _).
    rewrite Ht in Ht'. injection Ht' as <-. apply Hbit, Hb.
  - intros m b account Hv Hm Hpw Ht Hb Hne. unfold route.
    rewrite Hv. unfold mbind, run_bind, bind, tell.
    rewrite Hm, Hpw, Ht, Hb. cbv zeta.
    destruct (Bool.eqb _ _) eqn:Heq; [|reflexivity].
    apply Bool.eqb_prop in Heq. congruence.
Qed.


(** The update stores the hash of the trimmed new password, and only
    when the new password is a string that is not blank; it confirms
    the email whenever [emailConfirmed] is present in the body, also
    when it is [false]. No update is made for a new password that is an
    object with a [trim] entry. *)
Theorem update_user_data (env : Env) (req : Request)
    (uid : string) (d : Update) :
  In (AccountUpdate uid d) (trace (route env req)) →
  (∀ pw, newPassword (body req) = Str pw → JSText.trim pw ≠ [] →
     u_password d = Some (hash env (JSText.trim pw)))
  ∧ (newPassword (body req) = Nullish
     ∨ (∃ pw, newPassword (body req) = Str pw ∧ JSText.trim pw = [])
     ∨ (∃ b, newPassword (body req) = Other b) →
     u_password d = None)
  ∧ newPassword (body req) ≠ TrimEntry
  ∧ (u_confirmEmail d = true ↔ emailConfirmed (body req) ≠ None)
  ∧ u_email d = email (body req)
  ∧ u_username d = username (body req)
  ∧ u_tag d = tag (body req)
  ∧ u_badges d = badges (body req).
Proof.
  intros Hin.
  destruct (route_updates_run env req uid d Hin) as (Hin' & _).
  destruct (applyUpdate_updates env req uid d Hin') as (_ & pw & Hpw & ->).
  unfold updateOf.
  cbn [u_password u_confirmEmail u_email u_username u_tag u_badges].
  split; [|split; [|split; [|split]]].
  - intros t Ht Hne. rewrite Ht in Hpw. injection Hpw as <-.
    destruct (JSText.trim t) as [|c r]; [contradiction | reflexivity].
  - intros [Hn | [(t & Ht & Hblank) | (b & Hb)]].
    + rewrite Hn in Hpw. injection Hpw as <-. reflexivity.
    + rewrite Ht in Hpw. injection Hpw as <-. rewrite Hblank. reflexivity.
    + rewrite Hb in Hpw. injection Hpw as <-. reflexivity.
  - intros Hn. rewrite Hn in Hpw. discriminate Hpw.
  - destruct (emailConfirmed (body req)); cbn; split; congruence.
  - repeat split.
Qed.

End UpdateUserFacts.



Lemma update_user_data_witness :
  UpdateUser.u_password
    (UpdateUser.updateOf (UpdateUser.sample_env true)
       (UpdateUser.body
          (UpdateUser.sample_request None (UpdateUser.Str (JS.text " s3cret "))))
       (Some (JS.text "s3cret")))
  = Some "$2b$s3cret".
Proof.
  destruct (update_user_data (UpdateUser.sample_env true)
              (UpdateUser.sample_request None
                 (UpdateUser.Str (JS.text " s3cret "))) "bob-id"
              (UpdateUser.updateOf (UpdateUser.sample_env true)
                 (UpdateUser.body
                    (UpdateUser.sample_request None
                       (UpdateUser.Str (JS.text " s3cret "))))
                 (Some (JS.text "s3cret"))))
    as [Hpw _].
  - right. right. left. reflexivity.
  - apply (Hpw (JS.text " s3cret ")); [reflexivity | discriminate].
Defined.

Lemma server_push_never_targets_witness :
  Push.serverTokenWhere 0 1 "srv" ["M"]
    (Push.member_row "M" "tM" [Push.setting "M" 2]) = false.
Proof.
  apply (server_push_never_targets 0 1 "srv" ["M"]
           (Push.member_row "M" "tM" [Push.setting "M" 2])).
  right. split.
  - exists (Push.setting "M" 2). split; [left|]; reflexivity.
  - intros s [<-|[]] _. split; discriminate.
Defined.

Lemma dm_push_targets_witness :
  Push.dmTokens Push.three_devices Push.example_channel = ["t1"; "t2"; "t3"].
Proof.
  destruct (dm_push_targets Push.three_devices Push.example_channel
              {| Push.recipientId := "D" |} eq_refl) as [Heq _].
  rewrite Heq. reflexivity.
Defined.
